(** * Sasquatch universal builder: the patch engine and the build driver

    A shallow embedding of [SASQUATCH_UNIVERSAL_BUILDER.py].

    Text read from a file is a Python [str]; it is modelled as a list of
    characters ([list ascii], one character per code point below 256).
    Names that the script only builds and passes on (paths, shell commands,
    package names, the install prefix) are [string]s; a [string] used inside
    file text is converted by the coercion below, which is what an f-string
    does.  [log] and [banner] only print and are left out. *)

From Stdlib Require Import Ascii String.
From stdpp Require Import base option list strings gmap pretty.

Abbreviation str := (list ascii).
Coercion list_ascii_of_string : string >-> list.

(** ** Python text primitives *)

Module Text.

Definition nl : ascii := "010"%char.

Definition is_nl (c : ascii) : bool := Ascii.eqb c nl.

(** [str.isspace] on one character, which is also the class [\s] of [re]
    for [str] patterns: TAB..CR, FS..US, space, NEL and NBSP. *)
Definition isspace (c : ascii) : bool :=
  let n := nat_of_ascii c in
  ((9 <=? n) && (n <=? 13)) || ((28 <=? n) && (n <=? 32))
  || (n =? 133) || (n =? 160).

(** [s.startswith(p)] *)
Fixpoint startswith (p s : str) : bool :=
  match p, s with
  | [], _ => true
  | _ :: _, [] => false
  | a :: p', b :: s' => Ascii.eqb a b && startswith p' s'
  end.

(** [p in s] *)
Fixpoint contains (p s : str) : bool :=
  startswith p s || match s with [] => false | _ :: s' => contains p s' end.

(** [s.replace(old, new)] for a non-empty [old]: the leftmost occurrences
    that do not overlap, in one pass.  [skip] counts the characters of an
    occurrence still to be passed over. *)
Fixpoint replace_go (old new : str) (skip : nat) (s : str) : str :=
  match s with
  | [] => []
  | c :: r =>
      match skip with
      | S k => replace_go old new k r
      | O => if startswith old s
             then new ++ replace_go old new (length old - 1) r
             else c :: replace_go old new 0 r
      end
  end.

(** [s.replace(old, new)]; with an empty [old] Python puts [new] around
    every character. *)
Definition replace (old new s : str) : str :=
  match old with
  | [] => new ++ flat_map (fun c => c :: new) s
  | _ :: _ => replace_go old new 0 s
  end.

(** [s.split('\n')]: never the empty list. *)
Fixpoint split_lines (s : str) : list str :=
  match s with
  | [] => [[]]
  | c :: r =>
      if is_nl c then [] :: split_lines r
      else match split_lines r with
           | l :: ls => (c :: l) :: ls
           | [] => [[c]]
           end
  end.

(** ['\n'.join(lines)] *)
Fixpoint join_lines (ls : list str) : str :=
  match ls with
  | [] => []
  | [l] => l
  | l :: ls' => l ++ nl :: join_lines ls'
  end.

Fixpoint lstrip (s : str) : str :=
  match s with
  | c :: r => if isspace c then lstrip r else s
  | [] => []
  end.

Definition rstrip (s : str) : str := rev (lstrip (rev s)).

(** [s.strip()] *)
Definition strip (s : str) : str := rstrip (lstrip s).

(** [lines.insert(i, x)]: before index [i], at the end when [i] is past
    it. *)
Definition list_insert_at {A} (i : nat) (x : A) (l : list A) : list A :=
  take i l ++ x :: drop i l.

(** [for i, line in enumerate(lines): if test(line): lines[i] = f(line)],
    the loop of the recipe rewrite.  The list is read and written by index
    while it is walked; [n] is the number of indices still to visit. *)
Fixpoint update_where_go (test : str -> bool) (f : str -> str)
    (n i : nat) (lines : list str) : list str :=
  match n with
  | O => lines
  | S n' =>
      match lines !! i with
      | Some line =>
          update_where_go test f n' (S i)
            (if test line then <[i := f line]> lines else lines)
      | None => lines
      end
  end.

Definition update_where (test : str -> bool) (f : str -> str)
    (lines : list str) : list str :=
  update_where_go test f (length lines) 0 lines.

End Text.

Import Text.

(** ** The regular expression of the duplicate-symbol rule *)

Module Re.

(** The fragment of [re] syntax the script uses. *)
Inductive regex : Type :=
| Eps                          (* the empty pattern *)
| Bol                          (* ^ under re.MULTILINE *)
| Chr (c : ascii)              (* a literal character *)
| Space                        (* \s *)
| SpaceStar                    (* \s*, greedy *)
| Cat (r1 r2 : regex)
| Opt (r : regex).             (* (r)?, greedy *)

Fixpoint Lit (s : string) : regex :=
  match s with
  | EmptyString => Eps
  | String c EmptyString => Chr c
  | String c s' => Cat (Chr c) (Lit s')
  end.

Definition SpacePlus : regex := Cat Space SpaceStar.

(** A position is the text still to read together with the answer to
    "is this the start of a line?".  Continuations return the text left
    after the whole match. *)
Definition cont := bool -> str -> option str.

Fixpoint star_space (bol : bool) (s : str) (k : cont) : option str :=
  match s with
  | c :: r =>
      if isspace c
      then match star_space (is_nl c) r k with
           | Some t => Some t
           | None => k bol s
           end
      else k bol s
  | [] => k bol []
  end.

(** Backtracking matcher: alternatives are tried in the order of [re]
    (longest repetition first, an optional group present first). *)
Fixpoint rmatch (r : regex) (bol : bool) (s : str) (k : cont) : option str :=
  match r with
  | Eps => k bol s
  | Bol => if bol then k bol s else None
  | Chr c =>
      match s with
      | x :: t => if Ascii.eqb x c then k (is_nl x) t else None
      | [] => None
      end
  | Space =>
      match s with
      | x :: t => if isspace x then k (is_nl x) t else None
      | [] => None
      end
  | SpaceStar => star_space bol s k
  | Cat r1 r2 => rmatch r1 bol s (fun b t => rmatch r2 b t k)
  | Opt r' =>
      match rmatch r' bol s k with
      | Some t => Some t
      | None => k bol s
      end
  end.

(** [pattern.match] at one position: the text left after the match. *)
Definition match_at (r : regex) (bol : bool) (s : str) : option str :=
  rmatch r bol s (fun _ t => Some t).

(** [re.sub(r, repl, s)] with a literal replacement: scan left to right,
    replace each match and go on after it; an empty match is replaced and
    the next character copied. *)
Fixpoint sub_go (r : regex) (repl : str) (skip : nat) (bol : bool) (s : str)
    : str :=
  match s with
  | [] =>
      match skip, match_at r bol [] with
      | O, Some _ => repl
      | _, _ => []
      end
  | c :: t =>
      match skip with
      | S k => sub_go r repl k (is_nl c) t
      | O =>
          match match_at r bol s with
          | Some rest =>
              if length rest =? length s
              then repl ++ c :: sub_go r repl 0 (is_nl c) t
              else repl ++ sub_go r repl (length s - length rest - 1) (is_nl c) t
          | None => c :: sub_go r repl 0 (is_nl c) t
          end
      end
  end.

Definition sub (r : regex) (repl s : str) : str := sub_go r repl 0 true s.

(** [r'^\s*int\s+verbose\s*(=\s*0)?\s*;'] *)
Definition verbose_definition : regex :=
  Cat Bol (Cat SpaceStar (Cat (Lit "int") (Cat SpacePlus (Cat (Lit "verbose")
    (Cat SpaceStar (Cat (Opt (Cat (Chr "=") (Cat SpaceStar (Chr "0"))))
      (Cat SpaceStar (Chr ";")))))))).

End Re.

(** ** The patch rules as functions on file text *)

Definition extern_declaration : str := "extern int verbose;".

(** [fix_error_header], the header: every definition at the start of a line
    becomes a declaration. *)
Definition error_h_rewrite (content : str) : str :=
  Re.sub Re.verbose_definition extern_declaration content.

(** The loop that finds the last line whose stripped text starts with
    [#include]; [None] is Python's [-1]. *)
Fixpoint last_include_go (i : nat) (last : option nat) (lines : list str)
    : option nat :=
  match lines with
  | [] => last
  | line :: rest =>
      last_include_go (S i)
        (if startswith "#include" (strip line) then Some i else last) rest
  end.

Definition last_include (lines : list str) : option nat :=
  last_include_go 0 None lines.

Definition verbose_definition_line : str := "int verbose = 0;".
Definition verbose_comment_line : str := "/* Global verbose variable definition */".

(** [fix_error_header], the consumer: [None] when the function writes
    nothing, otherwise the text it writes. *)
Definition unsquashfs_c_definition (content : str) : option str :=
  if contains verbose_definition_line content then None
  else
    let lines := split_lines content in
    match last_include lines with
    | Some last =>
        let lines := list_insert_at (last + 1) [] lines in
        let lines := list_insert_at (last + 2) verbose_comment_line lines in
        let lines := list_insert_at (last + 3) verbose_definition_line lines in
        let lines := list_insert_at (last + 4) [] lines in
        Some (join_lines lines)
    | None => None
    end.

Definition fnm_guard : str := "#ifndef FNM_EXTMATCH".

Definition fnm_fix : str :=
  "#ifndef FNM_EXTMATCH" ++ nl :: "#define FNM_EXTMATCH 0" ++ nl :: "#endif" ++ [nl; nl].

(** [fix_fnm_extmatch]: the text written back. *)
Definition fnm_rewrite (content : str) : str :=
  if negb (startswith fnm_guard content) then fnm_fix ++ content else content.

(** [disable_xz_wrapper]: the marker. *)
Definition xz_marker : str := "/* XZ support disabled */" ++ [nl].

Definition cflags_line (prefix : string) : str :=
  "CFLAGS := -g -O2 -I" ++ prefix ++ "/include -I. -I./LZMA/lzma465/C -I./LZMA/lzmalt -I./LZMA/lzmadaptive/C/7zip/Compress/LZMA_Lib".

Definition libs_line (prefix : string) : str :=
  "LIBS += -lz -lm -L" ++ prefix ++ "/lib -llzo2 -llzma -L./LZMA/lzmadaptive/C/7zip/Compress/LZMA_Lib -llzmalib".

Definition is_cflags (line : str) : bool :=
  startswith "CFLAGS" line && contains "./LZMA" line.

Definition is_libs (line : str) : bool :=
  startswith "LIBS +=" line && contains "-llzma" line.

Definition has_xz (line : str) : bool := contains "-DXZ_SUPPORT" line.

(** [fix_makefile]: the text written back. *)
Definition makefile_rewrite (prefix : string) (content : str) : str :=
  let content := replace "-Werror" [] content in
  let lines := split_lines content in
  let lines := update_where is_cflags (fun _ => cflags_line prefix) lines in
  let lines := update_where is_libs (fun _ => libs_line prefix) lines in
  let lines := update_where has_xz (replace "-DXZ_SUPPORT" []) lines in
  join_lines lines.

(** ** Exceptions, the machine and the monad of the script *)

Inductive exn : Type :=
| KeyboardInterrupt
| SystemExit (code : Z)
| OSError
| CalledProcessError (returncode : Z).

(** [isinstance(e, Exception)]: what [except Exception] catches. *)
Definition is_Exception (e : exn) : bool :=
  match e with
  | OSError | CalledProcessError _ => true
  | KeyboardInterrupt | SystemExit _ => false
  end.

Inductive outcome (A : Type) : Type :=
| Ret (a : A)
| Raise (e : exn).
Arguments Ret {A} a.
Arguments Raise {A} e.

(** What a path names, seen from the current directory. *)
Inductive node : Type :=
| File (content : str)
| Dir.

(** One [subprocess.run]: the command line and the environment the child
    gets. *)
Record invocation : Type := Invocation {
  inv_cmd : string;
  inv_env : gmap string string }.

(** The machine: the paths visible from the current directory, the child
    processes started so far, and whatever else of the machine the external
    programs depend on. *)
Record world (X : Type) : Type := World {
  nodes : gmap string node;
  spawned : list invocation;
  machine : X }.
Arguments World {X} nodes spawned machine.
Arguments nodes {X} w.
Arguments spawned {X} w.
Arguments machine {X} w.

(** How a child process ends: with an exit status, by the user's interrupt,
    or not started at all. *)
Inductive child : Type :=
| Exited (returncode : Z)
| Interrupted
| SpawnFailed.

(** Everything outside the script: the process environment (never changed by
    the script) and the behaviour of the operating system and of the external
    programs.  [None] from a file-system call is an [OSError]. *)
Record host (X : Type) : Type := Host {
  environ : gmap string string;
  platform_system : string;
  which : string -> world X -> bool;
  cpu_count : world X -> option nat;
  sh : string -> gmap string string -> world X -> child * world X;
  os_chdir : string -> world X -> option (world X);
  rmtree : string -> world X -> option (world X);
  makedirs : string -> world X -> option (world X);
  copy : string -> string -> world X -> option (world X);
  chmod : string -> world X -> option (world X) }.
Arguments Host {X}.
Arguments environ {X} h.
Arguments platform_system {X} h.
Arguments which {X} h.
Arguments cpu_count {X} h.
Arguments sh {X} h.
Arguments os_chdir {X} h.
Arguments rmtree {X} h.
Arguments makedirs {X} h.
Arguments copy {X} h.
Arguments chmod {X} h.

(** The world after [p] has been written with [c]. *)
Definition set_file {X} (p : string) (c : str) (w : world X) : world X :=
  World (<[p := File c]> (nodes w)) (spawned w) (machine w).

(** The world once a child process has been started. *)
Definition record_spawn {X} (cmd : string) (env : gmap string string)
    (w : world X) : world X :=
  World (nodes w) (spawned w ++ [Invocation cmd env]) (machine w).

Definition M (X A : Type) : Type := world X -> outcome A * world X.

#[global] Instance M_ret X : MRet (M X) := fun A a w => (Ret a, w).

#[global] Instance M_bind X : MBind (M X) := fun A B f m w =>
  match m w with
  | (Ret a, w') => f a w'
  | (Raise e, w') => (Raise e, w')
  end.

Definition raise {X A} (e : exn) : M X A := fun w => (Raise e, w).

Definition gets {X A} (f : world X -> A) : M X A := fun w => (Ret (f w), w).

(** A file-system call of the host; its failure is an [OSError]. *)
Definition os_call {X} (f : world X -> option (world X)) : M X unit := fun w =>
  match f w with
  | Some w' => (Ret tt, w')
  | None => (Raise OSError, w)
  end.

(** [try: body / except ...: handler]; [handler e = None] when no clause
    catches [e]. *)
Definition try_except {X A} (body : M X A) (handler : exn -> option (M X A))
    : M X A := fun w =>
  match body w with
  | (Ret a, w') => (Ret a, w')
  | (Raise e, w') =>
      match handler e with
      | Some h => h w'
      | None => (Raise e, w')
      end
  end.

Fixpoint for_each {X A} (l : list A) (body : A -> M X unit) : M X unit :=
  match l with
  | [] => mret tt
  | a :: l' => body a;; for_each l' body
  end.

(** [os.path.exists] *)
Definition path_exists {X} (p : string) (w : world X) : bool :=
  bool_decide (is_Some (nodes w !! p)).

(** [open(p, 'r').read()] *)
Definition read_file {X} (p : string) : M X str := fun w =>
  match nodes w !! p with
  | Some (File c) => (Ret c, w)
  | Some Dir | None => (Raise OSError, w)
  end.

(** [open(p, 'w').write(c)] *)
Definition write_file {X} (p : string) (c : str) : M X unit := fun w =>
  match nodes w !! p with
  | Some Dir => (Raise OSError, w)
  | Some (File _) | None => (Ret tt, set_file p c w)
  end.

(** [os.path.join] of two components. *)
Definition path_join (a b : string) : string :=
  if startswith "/" b then b
  else if (a =? "")%string || startswith "/" (rev (a : str)) then (a ++ b)%string
  else (a ++ "/" ++ b)%string.

Definition ascii_lower (c : ascii) : ascii :=
  let n := nat_of_ascii c in
  if (65 <=? n) && (n <=? 90) then ascii_of_nat (n + 32) else c.

(** [s.lower()] on the names [platform.system()] returns. *)
Fixpoint lower (s : string) : string :=
  match s with
  | EmptyString => EmptyString
  | String c s' => String (ascii_lower c) (lower s')
  end.

(** ** Configuration *)

Definition REPO_URL : string := "https://github.com/devttys0/sasquatch.git".
Definition SQUASHFS_URL : string :=
  "https://downloads.sourceforge.net/project/squashfs/squashfs/squashfs4.3/squashfs4.3.tar.gz".
Definition BUILD_DIR : string := "sasquatch_rc1_build".

(** The dictionary [info] of [detect_env]. *)
Record env_info : Type := EnvInfo {
  os : string;
  is_termux : bool;
  prefix : string;
  pkg_mgr : option string;
  packages : list string }.

Record completed : Type := Completed { returncode : Z }.

(** ** The script *)

Section Script.

Context {X : Type} (H : host X).

(** [subprocess.run(cmd, shell=True, check=check, env=env)]; without
    [env] the child inherits the environment of the script. *)
Definition subprocess_run (cmd : string) (env : option (gmap string string))
    (check : bool) : M X completed := fun w =>
  let child_env := default (environ H) env in
  let '(c, w') := sh H cmd child_env w in
  let w'' := record_spawn cmd child_env w' in
  match c with
  | Exited rc =>
      if check && negb (rc =? 0)%Z
      then (Raise (CalledProcessError rc), w'')
      else (Ret (Completed rc), w'')
  | Interrupted => (Raise KeyboardInterrupt, w'')
  | SpawnFailed => (Raise OSError, w'')
  end.

Definition run_cmd (cmd : string) (check silent : bool)
    : M X (option completed) :=
  try_except
    (result ← subprocess_run cmd None check; mret (Some result))
    (fun e => match e with
              | CalledProcessError _ => Some (mret None)
              | _ => None
              end).

Definition detect_env (w : world X) : env_info :=
  let info := EnvInfo (lower (platform_system H)) false "/usr/local" None [] in
  if path_exists "/data/data/com.termux" w
     || contains "com.termux" (default ""%string (environ H !! "PREFIX"))
  then EnvInfo (os info) true
         (default "/data/data/com.termux/files/usr"%string (environ H !! "PREFIX"))
         (Some "pkg"%string)
         ["git"; "patch"; "make"; "clang"; "zlib"; "liblzma"; "xz-utils";
          "lzo"; "lzo2"; "binutils"; "wget"]%string
  else if which H "apt" w
  then EnvInfo (os info) (is_termux info) "/usr" (Some "apt"%string)
         ["git"; "patch"; "make"; "gcc"; "g++"; "zlib1g-dev"; "liblzma-dev";
          "liblzo2-dev"; "binutils"; "wget"]%string
  else if which H "pacman" w
  then EnvInfo (os info) (is_termux info) "/usr" (Some "pacman"%string)
         ["git"; "patch"; "make"; "gcc"; "zlib"; "xz"; "lzo"; "binutils";
          "wget"]%string
  else if which H "dnf" w
  then EnvInfo (os info) (is_termux info) "/usr" (Some "dnf"%string)
         ["git"; "patch"; "make"; "gcc"; "gcc-c++"; "zlib-devel"; "xz-devel";
          "lzo-devel"; "binutils"; "wget"]%string
  else if which H "apk" w
  then EnvInfo (os info) (is_termux info) "/usr" (Some "apk"%string)
         ["git"; "patch"; "make"; "gcc"; "g++"; "zlib-dev"; "xz-dev";
          "lzo-dev"; "binutils"; "wget"]%string
  else info.

Definition install_deps (env : env_info) : M X unit :=
  match pkg_mgr env with
  | None => mret tt
  | Some mgr =>
      let all := String.concat " " (packages env) in
      if (mgr =? "")%string then mret tt
      else if (mgr =? "pkg")%string then
        for_each (packages env) (fun pkg =>
          run_cmd ("pkg install -y " ++ pkg) true true;; mret tt)
      else if (mgr =? "apt")%string then
        run_cmd "sudo apt-get update" true true;;
        run_cmd ("sudo apt-get install -y " ++ all) true true;; mret tt
      else if (mgr =? "pacman")%string then
        run_cmd ("sudo pacman -S --noconfirm " ++ all) true true;; mret tt
      else if (mgr =? "dnf")%string then
        run_cmd ("sudo dnf install -y " ++ all) true true;; mret tt
      else if (mgr =? "apk")%string then
        run_cmd ("sudo apk add --no-cache " ++ all) true true;; mret tt
      else mret tt
  end.

Definition setup_source : M X unit :=
  there ← gets (path_exists BUILD_DIR);
  (if there : bool then os_call (rmtree H BUILD_DIR) else mret tt);;
  os_call (makedirs H BUILD_DIR);;
  os_call (os_chdir H BUILD_DIR);;
  run_cmd ("git clone " ++ REPO_URL ++ " repo") true true;;
  run_cmd ("wget -q " ++ SQUASHFS_URL) true false;;
  run_cmd "tar -zxf squashfs4.3.tar.gz" true false;;
  mret tt.

Definition cr : ascii := "013"%char.

Definition apply_patches : M X unit :=
  os_call (os_chdir H "squashfs4.3");;
  let patch_file := "../repo/patches/patch0.txt"%string in
  there ← gets (path_exists patch_file);
  if there : bool then
    patch_content ← read_file patch_file;
    write_file "sasquatch.patch" (replace [cr; nl] [nl] patch_content);;
    run_cmd "patch -p0 -f -i sasquatch.patch" false false;;
    mret tt
  else mret tt.

Definition fix_error_header : M X unit :=
  let tools_path := "squashfs-tools"%string in
  let error_h := path_join tools_path "error.h" in
  there ← gets (path_exists error_h);
  (if there : bool then
     content ← read_file error_h;
     write_file error_h (error_h_rewrite content)
   else mret tt);;
  let unsquashfs_c := path_join tools_path "unsquashfs.c" in
  there ← gets (path_exists unsquashfs_c);
  if there : bool then
    content ← read_file unsquashfs_c;
    match unsquashfs_c_definition content with
    | Some content' => write_file unsquashfs_c content'
    | None => mret tt
    end
  else mret tt.

Definition fix_fnm_extmatch : M X unit :=
  let tools_path := "squashfs-tools"%string in
  let unsquashfs_c := path_join tools_path "unsquashfs.c" in
  there ← gets (path_exists unsquashfs_c);
  if there : bool then
    content ← read_file unsquashfs_c;
    write_file unsquashfs_c (fnm_rewrite content)
  else mret tt.

Definition disable_xz_wrapper : M X unit :=
  let tools_path := "squashfs-tools"%string in
  let xz_files := [path_join tools_path "xz_wrapper.c";
                   path_join tools_path "xz_wrapper.h"] in
  for_each xz_files (fun xz_file =>
    there ← gets (path_exists xz_file);
    if there : bool then write_file xz_file xz_marker else mret tt).

Definition fix_makefile (env : env_info) : M X unit :=
  let tools_path := "squashfs-tools"%string in
  let makefile := path_join tools_path "Makefile" in
  there ← gets (path_exists makefile);
  if negb there then mret tt
  else
    content ← read_file makefile;
    write_file makefile (makefile_rewrite (prefix env) content).

Definition apply_universal_fixes (env : env_info) : M X unit :=
  fix_error_header;;
  fix_fnm_extmatch;;
  disable_xz_wrapper;;
  fix_makefile env.

(** [os.cpu_count() or 2] *)
Definition nproc_of (n : option nat) : nat :=
  match n with
  | Some (S k) => S k
  | Some O | None => 2
  end.

(** As in the source, [build_env] is built and then not handed to
    [run_cmd], which has no parameter for it. *)
Definition build_and_deploy (env : env_info) : M X bool :=
  let tools_path := "squashfs-tools"%string in
  os_call (os_chdir H tools_path);;
  run_cmd "make clean" false true;;
  nproc ← gets (fun w => nproc_of (cpu_count H w));
  let build_env := environ H in
  let build_env :=
    if is_termux env
    then <["CXX" := "clang++"%string]> (<["CC" := "clang"%string]> build_env)
    else build_env in
  result ← run_cmd ("make -j" ++ pretty nproc) true false;
  artifact ← gets (path_exists "sasquatch");
  if match result with
     | Some r => (returncode r =? 0)%Z && artifact
     | None => false
     end
  then
    let local_bin := "../../sasquatch_binary"%string in
    os_call (copy H "sasquatch" local_bin);;
    let target := (prefix env ++ "/bin/sasquatch")%string in
    (if is_termux env then
       try_except
         (os_call (copy H "sasquatch" target);;
          os_call (chmod H target))
         (fun e => if is_Exception e then Some (mret tt) else None)
     else mret tt);;
    mret true
  else mret false.

Definition sys_exit {A} (code : Z) : M X A := raise (SystemExit code).

(** The [try] block of [main]. *)
Definition main_body : M X unit :=
  env ← gets detect_env;
  install_deps env;;
  setup_source;;
  apply_patches;;
  apply_universal_fixes env;;
  success ← build_and_deploy env;
  if success : bool then sys_exit 0 else sys_exit 1.

Definition main : M X unit :=
  try_except main_body
    (fun e => match e with
              | KeyboardInterrupt => Some (sys_exit 130)
              | SystemExit _ => None
              | OSError | CalledProcessError _ => Some (sys_exit 1)
              end).

(** The exit status of the process that runs [main]. *)
Definition exit_status (w : world X) : Z :=
  match fst (main w) with
  | Ret _ => 0
  | Raise (SystemExit code) => code
  | Raise KeyboardInterrupt => 130
  | Raise _ => 1
  end.

End Script.

(** ** A scripted host, for running the model on concrete machines *)

Module Scripted.

(** What the machine of a scenario does: which package managers resolve,
    what each directory shows once the script has entered it, how [make]
    ends and whether it leaves the artifact behind. *)
Record scenario : Type := Scenario {
  sc_environ : gmap string string;
  sc_which : string -> bool;
  sc_cpus : option nat;
  sc_view : string -> gmap string node;
  sc_make : child;
  sc_artifact : bool }.

Definition run_child (sc : scenario) (cmd : string)
    (env : gmap string string) (w : world unit) : child * world unit :=
  if startswith "make -j" cmd
  then (sc_make sc,
        if sc_artifact sc
        then World (<["sasquatch"%string := File "ELF"]> (nodes w)) (spawned w) tt
        else w)
  else (Exited 0, w).

Definition enter (sc : scenario) (p : string) (w : world unit)
    : option (world unit) :=
  Some (World (sc_view sc p) (spawned w) tt).

Definition host_of (sc : scenario) : host unit :=
  Host (sc_environ sc) "Linux" (fun p _ => sc_which sc p) (fun _ => sc_cpus sc)
    (run_child sc) (enter sc) (fun _ w => Some w) (fun _ w => Some w)
    (fun _ _ w => Some w) (fun _ w => Some w).

Definition start : world unit := World ∅ [] tt.

End Scripted.

(** The command line of the native build. *)
Definition make_cmd {X} (H : host X) (w : world X) : string :=
  "make -j" ++ pretty (nproc_of (cpu_count H w)).

(** ** The declaration pattern as a deterministic automaton

    The pattern of the duplicate-symbol rule never has to backtrack: after
    white space the next character decides.  [Dfa.run] reads it that way;
    [match_at_run] below proves it equal to the backtracking matcher. *)

Module Dfa.

Inductive state : Type :=
| S0 | I1 | I2 | I3 | W1
| V1 | V2 | V3 | V4 | V5 | V6 | V7
| E1 | Z1.

#[global] Instance state_eq_dec : EqDecision state.
Proof. solve_decision. Defined.

Inductive verdict : Type :=
| Next (q : state)
| Accept
| Reject.

Definition on (c x : ascii) (v : verdict) : verdict :=
  if Ascii.eqb x c then v else Reject.

Definition step (q : state) (x : ascii) : verdict :=
  match q with
  | S0 => if isspace x then Next S0 else on "i" x (Next I1)
  | I1 => on "n" x (Next I2)
  | I2 => on "t" x (Next I3)
  | I3 => if isspace x then Next W1 else Reject
  | W1 => if isspace x then Next W1 else on "v" x (Next V1)
  | V1 => on "e" x (Next V2)
  | V2 => on "r" x (Next V3)
  | V3 => on "b" x (Next V4)
  | V4 => on "o" x (Next V5)
  | V5 => on "s" x (Next V6)
  | V6 => on "e" x (Next V7)
  | V7 => if isspace x then Next V7
          else if Ascii.eqb x "=" then Next E1 else on ";" x Accept
  | E1 => if isspace x then Next E1 else on "0" x (Next Z1)
  | Z1 => if isspace x then Next Z1 else on ";" x Accept
  end.

(** The text left after the match, if there is one. *)
Fixpoint run (q : state) (s : str) : option str :=
  match s with
  | [] => None
  | x :: t =>
      match step q x with
      | Next q' => run q' t
      | Accept => Some t
      | Reject => None
      end
  end.

(** The states that have just read white space. *)
Definition after_space (q : state) : bool :=
  match q with
  | S0 | W1 | V7 | E1 | Z1 => true
  | _ => false
  end.

End Dfa.

Definition final : Re.cont := fun _ t => Some t.

(** [re.sub] of the duplicate-symbol rule, resumed at a position that is
    ([b = true]) or is not the start of a line. *)
Definition sub0 (b : bool) (s : str) : str :=
  Re.sub_go Re.verbose_definition extern_declaration 0 b s.

(** ** The recipe rewrite, line by line *)

(** What one pass of a loop of [fix_makefile] leaves of a line. *)
Definition updated (test : str -> bool) (f : str -> str) (line : str) : str :=
  if test line then f line else line.

(** The three loops of [fix_makefile] on one line. *)
Definition recipe_line (p : string) (line : str) : str :=
  updated has_xz (replace "-DXZ_SUPPORT" [])
    (updated is_libs (fun _ => libs_line p)
       (updated is_cflags (fun _ => cflags_line p) line)).

(** [sep.join(pieces)] *)
Fixpoint join_with (sep : str) (pieces : list str) : str :=
  match pieces with
  | [] => []
  | [x] => x
  | x :: rest => x ++ sep ++ join_with sep rest
  end.

(** A line on which no loop of [fix_makefile] has anything left to do. *)
Definition line_settled (p : string) (l : str) : bool :=
  negb (has_xz l)
  && implb (is_cflags l) (bool_decide (l = cflags_line p))
  && implb (is_libs l) (bool_decide (l = libs_line p)).

(** A recipe in which no sub-rule of [fix_makefile] finds a match. *)
Definition recipe_settled (p : string) (content : str) : bool :=
  negb (contains "-Werror" content) && forallb (line_settled p) (split_lines content).

(** ** The consumer of the duplicate-symbol rule *)

Definition is_include (line : str) : bool := startswith "#include" (strip line).

Definition definition_block : list str :=
  [[]; verbose_comment_line; verbose_definition_line; []].


(** The text of the consumer after [fix_error_header]. *)
Definition unsquashfs_c_rewrite (content : str) : str :=
  default content (unsquashfs_c_definition content).

(** ** The patch engine as a list of rules *)

(** A patch rule: the file it rewrites and the text it writes back. *)
Record rule : Type := Rule {
  target : string;
  transform : str -> str }.

Definition apply_rule {X} (r : rule) : M X unit :=
  there ← gets (path_exists (target r));
  if there : bool then
    content ← read_file (target r);
    write_file (target r) (transform r content)
  else mret tt.

(** [apply_universal_fixes] as rules, in the order it runs them. *)
Definition universal_rules (env : env_info) : list rule :=
  [ Rule "squashfs-tools/error.h" error_h_rewrite;
    Rule "squashfs-tools/unsquashfs.c" unsquashfs_c_rewrite;
    Rule "squashfs-tools/unsquashfs.c" fnm_rewrite;
    Rule "squashfs-tools/xz_wrapper.c" (fun _ => xz_marker);
    Rule "squashfs-tools/xz_wrapper.h" (fun _ => xz_marker);
    Rule "squashfs-tools/Makefile" (makefile_rewrite (prefix env)) ].

Definition on_file (f : str -> str) (n : node) : node :=
  match n with
  | File c => File (f c)
  | Dir => Dir
  end.

Definition is_dir (p : string) (m : gmap string node) : bool :=
  match m !! p with
  | Some Dir => true
  | _ => false
  end.

(** The rules that run before the first one whose target is a directory. *)
Fixpoint passed (rs : list rule) (m : gmap string node) : list rule :=
  match rs with
  | [] => []
  | r :: rs' => if is_dir (target r) m then [] else r :: passed rs' m
  end.

Definition blocked (rs : list rule) (m : gmap string node) : bool :=
  existsb (fun r => is_dir (target r) m) rs.

Definition patched (rs : list rule) (m : gmap string node) : gmap string node :=
  foldl (fun m r => alter (on_file (transform r)) (target r) m) m rs.

(** What the rules [rs] make of the text [c] of the file [p]. *)
Definition content_after (rs : list rule) (p : string) (c : str) : str :=
  foldl (fun c r => if decide (target r = p) then transform r c else c) c rs.

(** ** Concrete machines and trees *)

Module Examples.
Import Scripted.

(** No Termux, no package manager; the build works. *)
Definition bare : scenario :=
  Scenario ∅ (fun _ => false) (Some 4) (fun _ => ∅) (Exited 0) true.


(** A host on which nothing can be downloaded: every child ends with
    status 1 and no source directory appears. *)
Definition offline_enter (p : string) (w : world unit) : option (world unit) :=
  if (p =? "squashfs4.3")%string then None else Some w.

Definition offline : host unit :=
  Host ∅ "Linux" (fun _ _ => false) (fun _ => None)
    (fun _ _ w => (Exited 1, w)) offline_enter
    (fun _ w => Some w) (fun _ w => Some w) (fun _ _ w => Some w) (fun _ w => Some w).

(** Termux with an environment that sets neither CC nor CXX. *)
Definition termux_phone : scenario :=
  Scenario {[ "PREFIX"%string := "/data/data/com.termux/files/usr"%string ]}
    (fun _ => false) (Some 8) (fun _ => ∅) (Exited 0) true.

Definition debian : env_info :=
  EnvInfo "linux" false "/usr" (Some "apt"%string) [].

Definition sample_makefile : str :=
  "INCLUDEDIR = -I." ++ nl :: "CFLAGS += -Wall -Werror -I./LZMA/lzma465/C" ++ nl ::
  "LIBS += -llzma -DXZ_SUPPORT" ++ nl :: "CFLAGS += -DXZ_SUPPORT -DCOMP_DEFAULT=gzip".

Definition sample_header : str :=
  "#ifndef ERROR_H" ++ nl :: "#define ERROR_H" ++ nl :: nl ::
  "int verbose = 0;" ++ nl :: "#endif".

Definition sample_consumer : str :=
  "#include <stdio.h>" ++ nl :: "#include <error.h>" ++ nl :: nl ::
  "int main(void) { return 0; }".

(** An unpacked tree, seen from [squashfs4.3]. *)
Definition sample_tree : world unit :=
  World
    (<["squashfs-tools/error.h"%string := File sample_header]>
     (<["squashfs-tools/unsquashfs.c"%string := File sample_consumer]>
      (<["squashfs-tools/xz_wrapper.c"%string := File "int xz_init(void);"]>
       (<["squashfs-tools/xz_wrapper.h"%string := File "#define XZ 1"]>
        (<["squashfs-tools/Makefile"%string := File sample_makefile]> ∅)))))
    [] tt.

(** A recipe in which deleting one flag splices another one together. *)
Definition spliced_tree : world unit :=
  World {[ "squashfs-tools/Makefile"%string := File "CFLAGS += -Wer-Werrorror" ]} [] tt.


End Examples.

(** ** Where the header holds a definition *)

(** Whether the pattern of the duplicate-symbol rule matches at the
    position [s], which is ([bol = true]) or is not the start of a line. *)
Definition defined_here (bol : bool) (s : str) : bool :=
  match Re.match_at Re.verbose_definition bol s with
  | Some _ => true
  | None => false
  end.

(** Whether the text [s] has a definition that the pattern matches: at its
    first position when that is the start of a line, or right after one of
    its line breaks. *)
Fixpoint definition_at_line_start (bol : bool) (s : str) : bool :=
  defined_here bol s
  || match s with
     | [] => false
     | c :: t => definition_at_line_start (is_nl c) t
     end.

(** ** The files of the patch engine *)

(** The paths that [apply_universal_fixes] opens. *)
Definition fix_targets : list string :=
  ["squashfs-tools/error.h"; "squashfs-tools/unsquashfs.c";
   "squashfs-tools/xz_wrapper.c"; "squashfs-tools/xz_wrapper.h";
   "squashfs-tools/Makefile"]%string.

(** ** What the driver raises and starts *)

(** The program [m] raises nothing but the exceptions in [allowed]. *)
Definition raises_only {X A} (allowed : exn -> bool) (m : M X A) : Prop :=
  forall w, match fst (m w) with
            | Ret _ => True
            | Raise e => allowed e = true
            end.

(** The exceptions that the operating system and the user cause. *)
Definition interrupt_or_OSError (e : exn) : bool :=
  match e with
  | KeyboardInterrupt | OSError => true
  | SystemExit _ | CalledProcessError _ => false
  end.


(** The command lines of [install_deps], in the order it runs them. *)
Definition install_commands (env : env_info) : list string :=
  let all := String.concat " " (packages env) in
  match pkg_mgr env with
  | None => []
  | Some mgr =>
      if (mgr =? "pkg")%string then
        map (fun pkg => "pkg install -y " ++ pkg)%string (packages env)
      else if (mgr =? "apt")%string then
        ["sudo apt-get update"; "sudo apt-get install -y " ++ all]%string
      else if (mgr =? "pacman")%string then
        ["sudo pacman -S --noconfirm " ++ all]%string
      else if (mgr =? "dnf")%string then
        ["sudo dnf install -y " ++ all]%string
      else if (mgr =? "apk")%string then
        ["sudo apk add --no-cache " ++ all]%string
      else []
  end.

(** The program [m] returns normally after starting exactly the commands
    [cmds], each in the environment [env]. *)
Definition spawns {X A} (env : gmap string string) (cmds : list string)
    (m : M X A) : Prop :=
  forall w, exists a w',
    m w = (Ret a, w')
    /\ spawned w' = spawned w ++ map (fun c => Invocation c env) cmds.

(** The test of [detect_env] for Termux. *)
Definition termux_marker {X} (H : host X) (w : world X) : bool :=
  path_exists "/data/data/com.termux" w
  || contains "com.termux" (default ""%string (environ H !! "PREFIX")).

(** ** Further machines *)

Module Machines.
Import Scripted.

(** The user interrupts the build. *)
Definition interrupted_build : scenario :=
  Scenario ∅ (fun _ => false) (Some 4) (fun _ => ∅) Interrupted false.

(** The compiler fails. *)
Definition failing_build : scenario :=
  Scenario ∅ (fun _ => false) (Some 4) (fun _ => ∅) (Exited 2) false.

(** The build directory cannot be created. *)
Definition read_only : host unit :=
  Host ∅ "Linux" (fun _ _ => false) (fun _ => None)
    (fun _ _ w => (Exited 0, w)) (fun _ w => Some w)
    (fun _ w => Some w) (fun _ _ => None) (fun _ _ w => Some w) (fun _ w => Some w).


(** Termux on which the prefix cannot be written: only the copy next to
    the build directory works. *)
Definition locked_termux : host unit :=
  Host {[ "PREFIX"%string := "/data/data/com.termux/files/usr"%string ]} "Linux"
    (fun _ _ => false) (fun _ => Some 8)
    (run_child Examples.termux_phone) (enter Examples.termux_phone)
    (fun _ w => Some w) (fun _ w => Some w)
    (fun _ dst w => if (dst =? "../../sasquatch_binary")%string then Some w else None)
    (fun _ w => Some w).

(** A Termux profile with three packages. *)
Definition termux_profile : env_info :=
  EnvInfo "linux" true "/data/data/com.termux/files/usr" (Some "pkg"%string)
    ["git"; "patch"; "make"]%string.

End Machines.

(** * Proofs *)

Import Re Dfa.

Ltac by_decide := refine (bool_decide_unpack _ _); vm_compute; exact I.

Ltac run_model := vm_compute; reflexivity.

(** ** Text *)

Lemma is_nl_true c : is_nl c = true <-> c = nl.
Proof. apply Ascii.eqb_eq. Qed.

Lemma is_nl_false c : is_nl c = false <-> c <> nl.
Proof. apply Ascii.eqb_neq. Qed.

Lemma startswith_app (p s : str) : startswith p (p ++ s) = true.
Proof. induction p as [|a p IH]; cbn; [done|]. rewrite Ascii.eqb_refl. exact IH. Qed.

Lemma startswith_spec (p s : str) : startswith p s = true <-> exists t, s = p ++ t.
Proof.
  split.
  - revert s. induction p as [|a p IH]; intros s E; [by exists s|].
    destruct s as [|b s]; [done|]. cbn in E.
    apply andb_true_iff in E as [E1 E2]. apply Ascii.eqb_eq in E1 as ->.
    destruct (IH _ E2) as [t ->]. by exists t.
  - intros [t ->]. apply startswith_app.
Qed.

Lemma contains_spec (p s : str) :
  contains p s = true <-> exists a b, s = a ++ p ++ b.
Proof.
  split.
  - induction s as [|c s IH]; cbn; intros E.
    + rewrite orb_false_r in E. apply startswith_spec in E as [t ->]. by exists [], t.
    + apply orb_true_iff in E as [E|E].
      * apply startswith_spec in E as [t ->]. by exists [], t.
      * destruct (IH E) as (a & b & ->). by exists (c :: a), b.
  - intros (a & b & ->). induction a as [|c a IH]; cbn [app].
    + destruct (p ++ b) eqn:E; cbn; rewrite <- ?E, startswith_app; done.
    + cbn. rewrite IH. apply orb_true_r.
Qed.

Lemma contains_app_l (p a b : str) : contains p a = true -> contains p (a ++ b) = true.
Proof.
  intros (x & y & ->)%contains_spec. apply contains_spec.
  exists x, (y ++ b). by rewrite <- !app_assoc.
Qed.

Lemma contains_app_r (p a b : str) : contains p b = true -> contains p (a ++ b) = true.
Proof.
  intros (x & y & ->)%contains_spec. apply contains_spec.
  exists (a ++ x), y. by rewrite <- !app_assoc.
Qed.

Lemma contains_refl (p : str) : contains p p = true.
Proof. apply contains_spec. exists [], []. by rewrite app_nil_r. Qed.

Lemma is_nl_false' c : nl <> c -> is_nl c = false.
Proof. intros Hc. apply is_nl_false. congruence. Qed.

(** ** Lines *)

Lemma split_lines_nonempty s : split_lines s <> [].
Proof. destruct s as [|c s]; cbn; [done|]. destruct (is_nl c), (split_lines s); done. Qed.

Lemma join_lines_cons l ls : ls <> [] -> join_lines (l :: ls) = l ++ nl :: join_lines ls.
Proof. by destruct ls. Qed.

Lemma join_split s : join_lines (split_lines s) = s.
Proof.
  induction s as [|c s IH]; [done|]. cbn.
  pose proof (split_lines_nonempty s) as Hne.
  destruct (is_nl c) eqn:E.
  - apply is_nl_true in E as ->. rewrite join_lines_cons by done. by rewrite IH.
  - destruct (split_lines s) as [|l ls]; [done|].
    destruct ls as [|l' ls]; cbn in *; by rewrite <- IH.
Qed.

Lemma split_lines_free l : nl ∉ l -> split_lines l = [l].
Proof.
  induction l as [|c l IH]; [done|]. intros Hn. cbn.
  apply not_elem_of_cons in Hn as [Hc Hl].
  apply is_nl_false' in Hc. rewrite Hc, IH; done.
Qed.

Lemma split_lines_app_nl l s : nl ∉ l -> split_lines (l ++ nl :: s) = l :: split_lines s.
Proof.
  induction l as [|c l IH]; intros Hn; cbn.
  - done.
  - apply not_elem_of_cons in Hn as [Hc Hl].
    apply is_nl_false' in Hc. rewrite Hc, IH; done.
Qed.

Lemma split_lines_all_free s : Forall (fun l => nl ∉ l) (split_lines s).
Proof.
  induction s as [|c s IH]; cbn.
  - repeat constructor. apply not_elem_of_nil.
  - destruct (is_nl c) eqn:E.
    + constructor; [apply not_elem_of_nil | done].
    + destruct (split_lines s) as [|l ls]; [repeat constructor|].
      * apply not_elem_of_cons. split; [apply is_nl_false in E; congruence | apply not_elem_of_nil].
      * inversion_clear IH. constructor; [|done].
        apply not_elem_of_cons. split; [apply is_nl_false in E; congruence | done].
Qed.

Lemma split_join ls :
  ls <> [] -> Forall (fun l => nl ∉ l) ls -> split_lines (join_lines ls) = ls.
Proof.
  induction ls as [|l ls IH]; [done|]. intros _ Hf. inversion_clear Hf as [|? ? Hl Hls].
  destruct ls as [|l' ls].
  - cbn. by apply split_lines_free.
  - rewrite join_lines_cons by done. rewrite split_lines_app_nl by done.
    by rewrite IH.
Qed.

(** ** [replace] *)

Lemma replace_go_absent (old new s : str) :
  old <> [] -> contains old s = false -> replace_go old new 0 s = s.
Proof.
  intros Hne. induction s as [|c s IH]; [done|]. cbn [contains replace_go].
  intros [E1 E2]%orb_false_iff. rewrite E1, IH; done.
Qed.

Lemma replace_absent (old new s : str) :
  old <> [] -> contains old s = false -> replace old new s = s.
Proof. intros Hne E. destruct old; [done|]. by apply replace_go_absent. Qed.

Lemma replace_go_delete_sub (old : str) k s c : c ∈ replace_go old [] k s -> c ∈ s.
Proof.
  revert k. induction s as [|x s IH]; intros k; cbn; [done|].
  destruct k.
  - destruct (startswith old (x :: s)); cbn [app].
    + intros E%IH. by right.
    + intros [->|E]%elem_of_cons; [left | right; eauto].
  - intros E%IH. by right.
Qed.

Lemma replace_delete_free (old s : str) : old <> [] -> nl ∉ s -> nl ∉ replace old [] s.
Proof.
  intros Hne Hs Hin. destruct old; [done|]. by apply replace_go_delete_sub in Hin.
Qed.

(** ** The loop over the lines *)

Lemma update_where_go_map test f n i (lines : list str) :
  n = length lines - i ->
  update_where_go test f n i lines = take i lines ++ map (updated test f) (drop i lines).
Proof.
  revert i lines. induction n as [|n IH]; intros i lines Hn; cbn.
  - rewrite drop_ge, take_ge by lia. by rewrite app_nil_r.
  - destruct (lines !! i) as [line|] eqn:E.
    2: { apply lookup_ge_None in E. lia. }
    assert ((if test line then <[i:=f line]> lines else lines)
            = <[i:=updated test f line]> lines) as ->.
    { unfold updated. destruct (test line); [done|]. by rewrite list_insert_id. }
    rewrite IH by (rewrite length_insert; lia).
    pose proof (lookup_lt_Some _ _ _ E) as Hlt.
    rewrite (take_S_r _ _ (updated test f line)) by (by rewrite list_lookup_insert_eq).
    rewrite take_insert_ge by lia.
    rewrite drop_insert_lt by lia.
    rewrite (drop_S _ _ _ E). cbn. by rewrite <- app_assoc.
Qed.

Lemma update_where_map test f (lines : list str) :
  update_where test f lines = map (updated test f) lines.
Proof. unfold update_where. by rewrite update_where_go_map by lia. Qed.

(** ** Occurrences cannot straddle a character foreign to the pattern *)

Lemma startswith_app_sep (p a b : str) c :
  c ∉ p -> startswith p (a ++ c :: b) = startswith p a.
Proof.
  revert a. induction p as [|x p IH]; intros a Hc; [by destruct a|].
  apply not_elem_of_cons in Hc as [Hx Hp].
  destruct a as [|y a]; cbn.
  - destruct (Ascii.eqb_spec x c); [congruence|done].
  - by rewrite IH.
Qed.

Lemma contains_app_sep (p a b : str) c :
  c ∉ p -> contains p (a ++ c :: b) = contains p a || contains p b.
Proof.
  intros Hc. induction a as [|y a IH].
  - cbn [app contains]. pose proof (startswith_app_sep p [] b c Hc) as E.
    cbn [app] in E. rewrite E. destruct p; [by destruct b|]. done.
  - cbn [app contains]. rewrite IH.
    change (y :: a ++ c :: b) with ((y :: a) ++ c :: b).
    rewrite startswith_app_sep by done. by rewrite !orb_assoc.
Qed.

Lemma startswith_first_line (p s l : str) ls :
  nl ∉ p -> split_lines s = l :: ls -> startswith p s = startswith p l.
Proof.
  intros Hp E. rewrite <- (join_split s), E.
  destruct ls as [|l' ls]; [done|].
  rewrite join_lines_cons by done. by apply startswith_app_sep.
Qed.

Lemma replace_go_split (old : str) k s :
  old <> [] -> nl ∉ old -> nl ∉ take k s ->
  split_lines (replace_go old [] k s) =
    match split_lines s with
    | l :: ls => replace_go old [] k l :: map (replace_go old [] 0) ls
    | [] => []
    end.
Proof.
  intros Hne Hold. revert k. induction s as [|c s IH]; intros k Hk.
  { by destruct k. }
  destruct k as [|k].
  - cbn [replace_go].
    assert (Hsw : forall l ls, split_lines (c :: s) = l :: ls ->
                    startswith old (c :: s) = startswith old l).
    { intros l ls. by apply startswith_first_line. }
    destruct (startswith old (c :: s)) eqn:Es.
    + destruct old as [|o old']; [done|].
      cbn in Es. apply andb_true_iff in Es as [Eo Es].
      apply Ascii.eqb_eq in Eo as <-.
      apply not_elem_of_cons in Hold as Hold'. destruct Hold' as [Ho Hold'].
      assert (is_nl o = false) as Eo by (by apply is_nl_false').
      cbn [app]. replace (length (o :: old') - 1) with (length old') by (cbn; lia).
      rewrite IH.
      2: { apply startswith_spec in Es as [t ->].
           by rewrite take_app_length. }
      cbn [split_lines]. rewrite Eo.
      pose proof (split_lines_nonempty s) as Hs.
      destruct (split_lines s) as [|l ls] eqn:El; [done|].
      f_equal. cbn [replace_go].
      specialize (Hsw (o :: l) ls). cbn [split_lines] in Hsw. rewrite Eo, El in Hsw.
      rewrite <- Hsw by done. cbn [app].
      by replace (length (o :: old') - 1) with (length old') by (cbn; lia).
    + cbn [split_lines]. rewrite IH by (cbn; apply not_elem_of_nil).
      pose proof (split_lines_nonempty s) as Hs.
      destruct (split_lines s) as [|l ls] eqn:El; [done|].
      destruct (is_nl c) eqn:Ec.
      * done.
      * f_equal. cbn [replace_go].
        specialize (Hsw (c :: l) ls). cbn [split_lines] in Hsw. rewrite Ec, El in Hsw.
        by rewrite <- Hsw.
  - cbn [replace_go]. cbn [take] in Hk. apply not_elem_of_cons in Hk as [Hc Hk].
    rewrite IH by done. cbn [split_lines].
    rewrite (is_nl_false' _ Hc).
    pose proof (split_lines_nonempty s) as Hs.
    destruct (split_lines s) as [|l ls] eqn:El; done.
Qed.

Lemma replace_split (old s : str) :
  old <> [] -> nl ∉ old ->
  split_lines (replace old [] s) = map (replace old []) (split_lines s).
Proof.
  intros Hne Hold. destruct old as [|o old']; [done|]. unfold replace.
  rewrite replace_go_split by (done || cbn; apply not_elem_of_nil).
  pose proof (split_lines_nonempty s). by destruct (split_lines s).
Qed.

(** ** The recipe rewrite *)

Lemma makefile_rewrite_lines p c :
  makefile_rewrite p c =
    join_lines (map (recipe_line p) (split_lines (replace "-Werror" [] c))).
Proof.
  unfold makefile_rewrite. rewrite !update_where_map, !map_map. done.
Qed.

Lemma cflags_line_free (p : string) : nl ∉ (p : str) -> nl ∉ cflags_line p.
Proof.
  intros Hp. unfold cflags_line. rewrite !elem_of_app.
  intros [H|[H|H]]; [revert H; by_decide | done | revert H; by_decide].
Qed.

Lemma libs_line_free (p : string) : nl ∉ (p : str) -> nl ∉ libs_line p.
Proof.
  intros Hp. unfold libs_line. rewrite !elem_of_app.
  intros [H|[H|H]]; [revert H; by_decide | done | revert H; by_decide].
Qed.

Lemma recipe_line_free (p : string) l : nl ∉ (p : str) -> nl ∉ l -> nl ∉ recipe_line p l.
Proof.
  intros Hp Hl. unfold recipe_line.
  assert (nl ∉ updated is_libs (fun _ => libs_line p)
                 (updated is_cflags (fun _ => cflags_line p) l)) as H.
  { unfold updated. repeat case_match; auto using cflags_line_free, libs_line_free. }
  revert H. generalize (updated is_libs (fun _ => libs_line p)
                          (updated is_cflags (fun _ => cflags_line p) l)).
  intros l' Hl'. unfold updated. destruct (has_xz l'); [|done].
  by apply replace_delete_free.
Qed.

Lemma has_xz_cflags_line (p : string) :
  has_xz (cflags_line p) = contains "-DXZ_SUPPORT" p.
Proof.
  unfold has_xz, cflags_line.
  change (list_ascii_of_string "CFLAGS := -g -O2 -I" ++ ?r)
    with (list_ascii_of_string "CFLAGS := -g -O2 -" ++ "I"%char :: r).
  rewrite contains_app_sep by by_decide.
  change (list_ascii_of_string "/include -I. -I./LZMA/lzma465/C -I./LZMA/lzmalt -I./LZMA/lzmadaptive/C/7zip/Compress/LZMA_Lib")
    with ("/"%char :: list_ascii_of_string "include -I. -I./LZMA/lzma465/C -I./LZMA/lzmalt -I./LZMA/lzmadaptive/C/7zip/Compress/LZMA_Lib").
  rewrite contains_app_sep by by_decide.
  by rewrite orb_false_r.
Qed.

Lemma has_xz_libs_line (p : string) :
  has_xz (libs_line p) = contains "-DXZ_SUPPORT" p.
Proof.
  unfold has_xz, libs_line.
  change (list_ascii_of_string "LIBS += -lz -lm -L" ++ ?r)
    with (list_ascii_of_string "LIBS += -lz -lm -" ++ "L"%char :: r).
  rewrite contains_app_sep by by_decide.
  change (list_ascii_of_string "/lib -llzo2 -llzma -L./LZMA/lzmadaptive/C/7zip/Compress/LZMA_Lib -llzmalib")
    with ("/"%char :: list_ascii_of_string "lib -llzo2 -llzma -L./LZMA/lzmadaptive/C/7zip/Compress/LZMA_Lib -llzmalib").
  rewrite contains_app_sep by by_decide.
  by rewrite orb_false_r.
Qed.

Lemma is_libs_cflags_line (p : string) : is_libs (cflags_line p) = false.
Proof. reflexivity. Qed.

Lemma is_libs_not_cflags l : is_libs l = true -> is_cflags l = false.
Proof.
  unfold is_libs, is_cflags. intros [E _]%andb_true_iff.
  apply startswith_spec in E as [t ->]. reflexivity.
Qed.

Lemma strip_xz_absent l : updated has_xz (replace "-DXZ_SUPPORT" []) l = replace "-DXZ_SUPPORT" [] l.
Proof.
  unfold updated. destruct (has_xz l) eqn:E; [done|].
  symmetry. by apply replace_absent.
Qed.

Lemma recipe_line_cflags (p : string) l :
  contains "-DXZ_SUPPORT" p = false -> is_cflags l = true -> recipe_line p l = cflags_line p.
Proof.
  intros Hp E. unfold recipe_line. unfold updated at 3. rewrite E.
  unfold updated at 2. rewrite is_libs_cflags_line.
  unfold updated. by rewrite has_xz_cflags_line, Hp.
Qed.

Lemma recipe_line_libs (p : string) l :
  contains "-DXZ_SUPPORT" p = false -> is_libs l = true -> recipe_line p l = libs_line p.
Proof.
  intros Hp E. unfold recipe_line. unfold updated at 3.
  rewrite (is_libs_not_cflags _ E). unfold updated at 2. rewrite E.
  unfold updated. by rewrite has_xz_libs_line, Hp.
Qed.

Lemma recipe_line_other (p : string) l :
  is_cflags l = false -> is_libs l = false ->
  recipe_line p l = replace "-DXZ_SUPPORT" [] l.
Proof.
  intros E1 E2. unfold recipe_line. unfold updated at 3. rewrite E1.
  unfold updated at 2. rewrite E2. apply strip_xz_absent.
Qed.

Lemma join_with_cons (sep x : str) ps :
  ps <> [] -> join_with sep (x :: ps) = x ++ sep ++ join_with sep ps.
Proof. by destruct ps. Qed.

Lemma replace_go_pieces (old : str) k s :
  old <> [] ->
  exists pieces, pieces <> [] /\ drop k s = join_with old pieces
                 /\ replace_go old [] k s = concat pieces.
Proof.
  intros Hne. revert k. induction s as [|c s IH]; intros k.
  { exists [[]]. by destruct k. }
  destruct k as [|k]; cbn [replace_go drop].
  - destruct (startswith old (c :: s)) eqn:E.
    + destruct old as [|o old']; [done|].
      destruct (IH (length old')) as (ps & Hps & E1 & E2).
      exists ([] :: ps). split; [done|].
      rewrite join_with_cons by done.
      replace (length (o :: old') - 1) with (length old') by (cbn; lia).
      split; [|by rewrite E2].
      apply startswith_spec in E as [t E]. rewrite E. cbn [app]. f_equal.
      injection E as -> ->. rewrite drop_app_length in E1. by rewrite E1.
    + destruct (IH 0) as (ps & Hps & E1 & E2).
      destruct ps as [|x ps]; [done|].
      exists ((c :: x) :: ps). split; [done|]. rewrite E2. split; [|done].
      rewrite drop_0 in E1. rewrite E1. by destruct ps.
  - apply IH.
Qed.

Lemma replace_pieces (old s : str) :
  old <> [] ->
  exists pieces, s = join_with old pieces /\ replace old [] s = concat pieces.
Proof.
  intros Hne. destruct (replace_go_pieces old 0 s Hne) as (ps & _ & E1 & E2).
  exists ps. rewrite drop_0 in E1. split; [done|]. by destruct old.
Qed.

Lemma line_settled_fixed (p : string) l : line_settled p l = true -> recipe_line p l = l.
Proof.
  unfold line_settled. intros [[E1 E2]%andb_true_iff E3]%andb_true_iff.
  apply negb_true_iff in E1. unfold recipe_line.
  assert (updated is_cflags (fun _ => cflags_line p) l = l) as ->.
  { unfold updated. destruct (is_cflags l); [|done].
    cbn in E2. by apply bool_decide_eq_true in E2. }
  assert (updated is_libs (fun _ => libs_line p) l = l) as ->.
  { unfold updated. destruct (is_libs l); [|done].
    cbn in E3. by apply bool_decide_eq_true in E3. }
  unfold updated. by rewrite E1.
Qed.

Lemma recipe_settled_fixed (p : string) c :
  recipe_settled p c = true -> makefile_rewrite p c = c.
Proof.
  unfold recipe_settled. intros [E1 E2]%andb_true_iff.
  apply negb_true_iff in E1.
  rewrite makefile_rewrite_lines, replace_absent by done.
  rewrite <- (join_split c) at 2. f_equal.
  rewrite forallb_forall in E2.
  rewrite <- (map_id (split_lines c)) at 2. apply map_ext_in.
  intros l Hl. by apply line_settled_fixed, E2.
Qed.

Lemma fnm_rewrite_idem c : fnm_rewrite (fnm_rewrite c) = fnm_rewrite c.
Proof.
  unfold fnm_rewrite at 2. destruct (startswith fnm_guard c) eqn:E; cbn [negb].
  - unfold fnm_rewrite. by rewrite E.
  - unfold fnm_rewrite.
    replace (startswith fnm_guard (fnm_fix ++ c)) with true; [by rewrite E|].
    symmetry. change fnm_fix with (fnm_guard ++ (nl :: "#define FNM_EXTMATCH 0" ++ nl :: "#endif" ++ [nl; nl])).
    rewrite <- app_assoc. apply startswith_app.
Qed.

(** ** The pattern of the duplicate-symbol rule *)

Lemma isspace_not c x : isspace x = true -> isspace c = false -> Ascii.eqb x c = false.
Proof. intros H1 H2. destruct (Ascii.eqb_spec x c) as [->|]; congruence. Qed.

(** \s*; *)
Lemma rmatch_Z1 b s :
  star_space b s (fun b t => rmatch (Chr ";") b t final) = run Z1 s.
Proof.
  revert b. induction s as [|x s IH]; intros b; [done|].
  cbn [star_space run step]. destruct (isspace x) eqn:E.
  - rewrite IH. destruct (run Z1 s); [done|].
    cbn. by rewrite (isspace_not ";" x).
  - cbn. unfold on. by destruct (Ascii.eqb x ";").
Qed.

(** \s*0\s*; *)
Lemma rmatch_E1 b s :
  star_space b s (fun b t => rmatch (Chr "0") b t
    (fun b t => star_space b t (fun b t => rmatch (Chr ";") b t final))) = run E1 s.
Proof.
  revert b. induction s as [|x s IH]; intros b; [done|].
  cbn [star_space run step]. destruct (isspace x) eqn:E.
  - rewrite IH. destruct (run E1 s); [done|].
    cbn. by rewrite (isspace_not "0" x).
  - cbn. unfold on. destruct (Ascii.eqb x "0"); [|done]. apply rmatch_Z1.
Qed.

Lemma run_Z1_V7 s t : run Z1 s = Some t -> run V7 s = Some t.
Proof.
  induction s as [|x s IH]; [done|]. cbn. unfold on.
  destruct (isspace x) eqn:E; [done|].
  destruct (Ascii.eqb_spec x ";") as [->|]; [done|done].
Qed.

(** \s*(=\s*0)?\s*; *)
Lemma rmatch_V7 b s :
  star_space b s (fun b t =>
    rmatch (Opt (Cat (Chr "=") (Cat SpaceStar (Chr "0")))) b t
      (fun b t => star_space b t (fun b t => rmatch (Chr ";") b t final))) = run V7 s.
Proof.
  revert b. induction s as [|x s IH]; intros b; [done|].
  cbn [star_space]. destruct (isspace x) eqn:E.
  - rewrite IH. cbn [run step]. rewrite E.
    destruct (run V7 s) eqn:Ev; [done|].
    cbn [rmatch]. rewrite (isspace_not "=" x) by done.
    rewrite rmatch_Z1. cbn [run step]. rewrite E.
    destruct (run Z1 s) eqn:Ez; [|done]. apply run_Z1_V7 in Ez. congruence.
  - cbn [rmatch run step]. rewrite E. unfold on.
    destruct (Ascii.eqb_spec x "=") as [->|Hx].
    + rewrite rmatch_E1. destruct (run E1 s); [done|].
      by rewrite rmatch_Z1.
    + rewrite rmatch_Z1. cbn [run step]. rewrite E. unfold on. done.
Qed.

Lemma rmatch_verbose (k : cont) b s :
  (forall b t, k b t = run V7 t) ->
  rmatch (Lit "verbose") b s k =
    match s with
    | x :: t => if Ascii.eqb x "v" then run V1 t else None
    | [] => None
    end.
Proof.
  intros Hk. cbn [Lit rmatch].
  do 7 (destruct s as [|? s]; cbn [run step]; unfold on;
        [by repeat case_match|]; destruct (Ascii.eqb _ _); [|done]).
  apply Hk.
Qed.

(** \s*verbose\s*(=\s*0)?\s*; *)
Lemma rmatch_W1 (k : cont) b s :
  (forall b t, k b t = run V7 t) ->
  star_space b s (fun b t => rmatch (Lit "verbose") b t k) = run W1 s.
Proof.
  intros Hk. revert b. induction s as [|x s IH]; intros b.
  { cbn [star_space]. by rewrite rmatch_verbose. }
  cbn [star_space run step]. destruct (isspace x) eqn:E.
  - rewrite IH. destruct (run W1 s); [done|].
    rewrite rmatch_verbose by done. by rewrite (isspace_not "v" x).
  - rewrite rmatch_verbose by done. unfold on. by destruct (Ascii.eqb x "v").
Qed.

Lemma rmatch_int (k : cont) b s :
  (forall b t, k b t = run I3 t) ->
  rmatch (Lit "int") b s k =
    match s with
    | x :: t => if Ascii.eqb x "i" then run I1 t else None
    | [] => None
    end.
Proof.
  intros Hk. cbn [Lit rmatch].
  do 3 (destruct s as [|? s]; cbn [run step]; unfold on;
        [by repeat case_match|]; destruct (Ascii.eqb _ _); [|done]).
  apply Hk.
Qed.

Lemma rmatch_S0 (k : cont) b s :
  (forall b t, k b t = run I3 t) ->
  star_space b s (fun b t => rmatch (Lit "int") b t k) = run S0 s.
Proof.
  intros Hk. revert b. induction s as [|x s IH]; intros b.
  { cbn [star_space]. by rewrite rmatch_int. }
  cbn [star_space run step]. destruct (isspace x) eqn:E.
  - rewrite IH. destruct (run S0 s); [done|].
    rewrite rmatch_int by done. by rewrite (isspace_not "i" x).
  - rewrite rmatch_int by done. unfold on. by destruct (Ascii.eqb x "i").
Qed.

(** The backtracking matcher and the automaton agree. *)
Lemma match_at_run bol s :
  match_at verbose_definition bol s = if bol then run S0 s else None.
Proof.
  unfold match_at, verbose_definition. cbn [rmatch]. destruct bol; [|done].
  apply rmatch_S0. intros b t. unfold SpacePlus. cbn [rmatch].
  destruct t as [|x t]; [done|]. cbn [run step].
  destruct (isspace x); [|done].
  apply rmatch_W1. intros b' t'. apply rmatch_V7.
Qed.

(** ** One step of the rewriting *)

Lemma run_accepts q s t : run q s = Some t -> exists m, s = m ++ ";"%char :: t.
Proof.
  revert q. induction s as [|x s IH]; intros q; [done|]. cbn.
  destruct (step q x) as [q'| |] eqn:E; [| |done].
  - intros (m & ->)%IH. by exists (x :: m).
  - intros [= ->]. exists [].
    destruct q; cbn in E; unfold on in E; repeat case_match; try done;
      match goal with H : Ascii.eqb _ _ = true |- _ => apply Ascii.eqb_eq in H as -> end;
      done.
Qed.

Lemma sub_go_skip (u : str) b c rest :
  sub_go verbose_definition extern_declaration (S (length u)) b (u ++ c :: rest)
  = sub0 (is_nl c) rest.
Proof.
  revert b. induction u as [|x u IH]; intros b; [done|]. cbn [length app sub_go]. apply IH.
Qed.

Lemma sub_step b s :
  sub0 b s =
    match (if b then run S0 s else None) with
    | Some rest => extern_declaration ++ sub0 false rest
    | None =>
        match s with
        | [] => []
        | c :: t => c :: sub0 (is_nl c) t
        end
    end.
Proof.
  unfold sub0 at 1. destruct s as [|c t]; cbn [sub_go]; rewrite match_at_run.
  { by destruct b. }
  destruct (if b then run S0 (c :: t) else None) as [rest|] eqn:E; [|done].
  assert (run S0 (c :: t) = Some rest) as (m & Em)%run_accepts by (by destruct b).
  rewrite Em. rewrite length_app. cbn [length].
  destruct (Nat.eqb_spec (length rest) (length m + S (length rest))) as [?|_]; [lia|].
  f_equal. replace (length m + S (length rest) - length rest - 1) with (length m) by lia.
  destruct m as [|x m]; cbn in Em; injection Em as -> ->; [done|].
  apply sub_go_skip.
Qed.

Lemma sub0_no_bol c t : sub0 false (c :: t) = c :: sub0 (is_nl c) t.
Proof. by rewrite sub_step. Qed.

Lemma sub0_copy (u o : str) : nl ∉ u -> sub0 false (u ++ o) = u ++ sub0 false o.
Proof.
  induction u as [|x u IH]; [done|]. intros [Hx Hu]%not_elem_of_cons.
  cbn [app]. rewrite sub0_no_bol. apply is_nl_false' in Hx. rewrite Hx.
  by rewrite IH.
Qed.

Lemma sub0_extern b o :
  sub0 b (extern_declaration ++ o) = extern_declaration ++ sub0 false o.
Proof.
  rewrite sub_step.
  assert ((if b then run S0 (extern_declaration ++ o) else None) = None) as ->
    by (by destruct b).
  change (extern_declaration ++ o) with ("e"%char :: list_ascii_of_string "xtern int verbose;" ++ o).
  cbv beta iota. change (is_nl "e") with false.
  rewrite sub0_copy by by_decide. done.
Qed.

(** ** What the automaton does around a line break *)

Lemma isspace_nl x : is_nl x = true -> isspace x = true.
Proof. by intros ->%is_nl_true. Qed.

Lemma step_space q x q' :
  step q x = Next q' -> isspace x = true -> after_space q' = true.
Proof.
  intros E Hx.
  destruct q; cbn in E; unfold on in E; rewrite ?Hx in E;
    repeat case_match; try congruence;
    try (match goal with H : Ascii.eqb _ _ = true |- _ =>
           apply Ascii.eqb_eq in H as -> end; done).
  all: by injection E as <-.
Qed.


Lemma run_extern q o : after_space q = true -> run q (extern_declaration ++ o) = None.
Proof. by destruct q. Qed.

(** A position where nothing matched still matches nothing after the text
    behind it has been rewritten. *)
Lemma run_none_sub t q b :
  (b = true -> after_space q = true) ->
  run q t = None -> run q (sub0 b t) = None.
Proof.
  revert q b. induction t as [|x t IH]; intros q b Hb E; rewrite sub_step.
  { by destruct b. }
  destruct (if b then run S0 (x :: t) else None) as [rest|] eqn:Em.
  - destruct b; [|done]. by apply run_extern, Hb.
  - cbn [run] in E |- *. destruct (step q x) as [q'| |] eqn:Es; [|done|done].
    apply IH; [|done]. intros Hx. eapply step_space; [done|]. by apply isspace_nl.
Qed.

Lemma sub0_idem s b : sub0 b (sub0 b s) = sub0 b s.
Proof.
  remember (length s) as n eqn:Hn. revert s b Hn.
  induction n as [n IH] using lt_wf_ind. intros s b ->.
  rewrite (sub_step b s).
  destruct (if b then run S0 s else None) as [rest|] eqn:Em.
  - rewrite sub0_extern. f_equal.
    assert (run S0 s = Some rest) as (m & ->)%run_accepts by (by destruct b).
    eapply IH; [|done]. rewrite length_app. cbn. lia.
  - destruct s as [|x t]; [by destruct b|].
    rewrite sub_step.
    assert ((if b then run S0 (x :: sub0 (is_nl x) t) else None) = None) as ->.
    { destruct b; [|done]. cbn [run] in Em |- *.
      destruct (step S0 x) as [q'| |] eqn:Es; [|done|done].
      apply run_none_sub; [|done]. intros Hx. eapply step_space; [done|].
      by apply isspace_nl. }
    f_equal. eapply IH; [|done]. cbn. lia.
Qed.

Lemma error_h_rewrite_idem content :
  error_h_rewrite (error_h_rewrite content) = error_h_rewrite content.
Proof. apply sub0_idem. Qed.

(** ** Where the declaration lands *)





(** ** The definition added to the consumer *)

Lemma last_include_go_None i last lines :
  last_include_go i last lines = None <->
  last = None /\ Forall (fun l => is_include l = false) lines.
Proof.
  revert i last. induction lines as [|l lines IH]; intros i last; cbn [last_include_go].
  - split; [intros ->; split; [done|constructor] | by intros [-> _]].
  - rewrite IH. fold (is_include l). destruct (is_include l) eqn:E.
    + split; [by intros [? _] | intros [_ H]; inversion_clear H; congruence].
    + split; [intros [-> ?]; by repeat constructor | intros [-> H]; by inversion_clear H].
Qed.

Lemma last_include_go_Some i last lines k :
  last_include_go i last lines = Some k ->
  (last = Some k /\ Forall (fun l => is_include l = false) lines)
  \/ exists j l, k = i + j /\ lines !! j = Some l /\ is_include l = true
                 /\ Forall (fun l => is_include l = false) (drop (S j) lines).
Proof.
  revert i last. induction lines as [|l lines IH]; intros i last; cbn [last_include_go].
  - intros ->. left. split; [done|constructor].
  - fold (is_include l). intros E. destruct (IH _ _ E) as [[E1 E2]|(j & l' & -> & E1 & E2 & E3)].
    + destruct (is_include l) eqn:El.
      * injection E1 as <-. right. exists 0, l. rewrite Nat.add_0_r. by repeat split.
      * left. split; [done|]. by constructor.
    + right. exists (S j), l'. repeat split; try done. lia.
Qed.

Lemma last_include_Some lines k :
  last_include lines = Some k ->
  exists l, lines !! k = Some l /\ is_include l = true
            /\ Forall (fun l => is_include l = false) (drop (S k) lines).
Proof.
  intros [[? _]|(j & l & -> & ?)]%last_include_go_Some; [done|]. by exists l.
Qed.

Lemma list_insert_at_app {A} (a b : list A) x n :
  n = length a -> list_insert_at n x (a ++ b) = a ++ x :: b.
Proof.
  intros ->. unfold list_insert_at. by rewrite take_app_length, drop_app_length.
Qed.

Lemma definition_inserted (lines : list str) i :
  i < length lines ->
  list_insert_at (i + 4) []
    (list_insert_at (i + 3) verbose_definition_line
       (list_insert_at (i + 2) verbose_comment_line
          (list_insert_at (i + 1) [] lines)))
  = take (S i) lines ++ definition_block ++ drop (S i) lines.
Proof.
  intros Hi. rewrite <- (take_drop (S i) lines) at 1.
  assert (length (take (S i) lines) = S i) as Hl by (rewrite length_take; lia).
  rewrite list_insert_at_app by lia.
  rewrite (cons_middle []), app_assoc.
  rewrite list_insert_at_app by (rewrite length_app; cbn; lia).
  rewrite (cons_middle verbose_comment_line), app_assoc.
  rewrite list_insert_at_app by (rewrite !length_app; cbn; lia).
  rewrite (cons_middle verbose_definition_line), app_assoc.
  rewrite list_insert_at_app by (rewrite !length_app; cbn; lia).
  by rewrite <- !app_assoc.
Qed.

Lemma contains_join p (ls : list str) l :
  l ∈ ls -> contains p l = true -> contains p (join_lines ls) = true.
Proof.
  intros Hl Hp. induction ls as [|x ls IH]; [by apply not_elem_of_nil in Hl|].
  destruct ls as [|y ls].
  - apply list_elem_of_singleton in Hl as ->. done.
  - rewrite join_lines_cons by done. apply elem_of_cons in Hl as [->|Hl].
    + by apply contains_app_l.
    + apply contains_app_r. change (contains p ([nl] ++ join_lines (y :: ls)) = true).
      apply contains_app_r. by apply IH.
Qed.


Lemma unsquashfs_c_definition_Some content content' :
  unsquashfs_c_definition content = Some content' ->
  contains verbose_definition_line content = false
  /\ exists i, last_include (split_lines content) = Some i
               /\ content' = join_lines (take (S i) (split_lines content)
                                         ++ definition_block
                                         ++ drop (S i) (split_lines content)).
Proof.
  unfold unsquashfs_c_definition.
  destruct (contains verbose_definition_line content); [done|].
  destruct (last_include (split_lines content)) as [i|] eqn:E; [|done].
  intros [= <-]. split; [done|]. exists i. split; [done|].
  destruct (last_include_Some _ _ E) as (l & Hl & _).
  by rewrite definition_inserted by (by eapply lookup_lt_Some).
Qed.

Lemma definition_block_contains (a b : list str) :
  contains verbose_definition_line (join_lines (a ++ definition_block ++ b)) = true.
Proof.
  apply (contains_join _ _ verbose_definition_line); [|apply contains_refl].
  apply elem_of_app. right. apply elem_of_app. left.
  unfold definition_block. set_solver.
Qed.

Lemma unsquashfs_c_definition_present content :
  contains verbose_definition_line content = true -> unsquashfs_c_definition content = None.
Proof. intros E. unfold unsquashfs_c_definition. by rewrite E. Qed.

Lemma unsquashfs_c_definition_absent content :
  contains verbose_definition_line content = false ->
  last_include (split_lines content) = None ->
  unsquashfs_c_definition content = None.
Proof. intros Hd Hi. unfold unsquashfs_c_definition. by rewrite Hd, Hi. Qed.

Lemma unsquashfs_c_rewrite_idem content :
  unsquashfs_c_rewrite (unsquashfs_c_rewrite content) = unsquashfs_c_rewrite content.
Proof.
  destruct (unsquashfs_c_definition content) as [content'|] eqn:E.
  - assert (unsquashfs_c_rewrite content = content') as ->
      by (unfold unsquashfs_c_rewrite; by rewrite E).
    apply unsquashfs_c_definition_Some in E as (_ & i & _ & ->).
    unfold unsquashfs_c_rewrite.
    rewrite unsquashfs_c_definition_present; [reflexivity|apply definition_block_contains].
  - assert (unsquashfs_c_rewrite content = content) as ->
      by (unfold unsquashfs_c_rewrite; by rewrite E).
    unfold unsquashfs_c_rewrite; by rewrite E.
Qed.

Lemma has_definition_fnm_fix content :
  contains verbose_definition_line (fnm_fix ++ content)
  = contains verbose_definition_line content.
Proof.
  change (fnm_fix ++ content)
    with (("#ifndef FNM_EXTMATCH" ++ nl :: "#define FNM_EXTMATCH 0" ++ nl :: "#endif" ++ [nl])
            ++ nl :: content).
  by rewrite contains_app_sep by by_decide.
Qed.

Lemma has_definition_fnm_rewrite content :
  contains verbose_definition_line (fnm_rewrite content)
  = contains verbose_definition_line content.
Proof.
  unfold fnm_rewrite. destruct (negb _); [apply has_definition_fnm_fix | done].
Qed.

Lemma last_include_fnm_fix content :
  last_include (split_lines content) = None ->
  last_include (split_lines (fnm_fix ++ content)) = None.
Proof.
  unfold last_include. rewrite !last_include_go_None. intros [_ H]. split; [done|].
  change (split_lines (fnm_fix ++ content))
    with ([("#ifndef FNM_EXTMATCH" : str); ("#define FNM_EXTMATCH 0" : str);
           ("#endif" : str); []] ++ split_lines content).
  apply Forall_app. split; [|done]. by repeat constructor.
Qed.

Lemma unsquashfs_c_definition_None content :
  unsquashfs_c_definition content = None ->
  contains verbose_definition_line content = false ->
  last_include (split_lines content) = None.
Proof.
  unfold unsquashfs_c_definition. intros E Hc. rewrite Hc in E.
  by destruct (last_include (split_lines content)).
Qed.

Lemma unsquashfs_c_rewrite_after_fnm content :
  unsquashfs_c_rewrite (fnm_rewrite (unsquashfs_c_rewrite content))
  = fnm_rewrite (unsquashfs_c_rewrite content).
Proof.
  set (c1 := unsquashfs_c_rewrite content).
  destruct (contains verbose_definition_line c1) eqn:E1.
  - unfold unsquashfs_c_rewrite at 1.
    rewrite unsquashfs_c_definition_present; [done|].
    by rewrite has_definition_fnm_rewrite.
  - assert (unsquashfs_c_definition content = None) as E0.
    { destruct (unsquashfs_c_definition content) as [c'|] eqn:E; [|done].
      assert (c1 = c') as Hc by (unfold c1, unsquashfs_c_rewrite; by rewrite E).
      apply unsquashfs_c_definition_Some in E as (_ & i & _ & ->).
      rewrite Hc, definition_block_contains in E1. done. }
    assert (c1 = content) as Hc by (unfold c1, unsquashfs_c_rewrite; by rewrite E0).
    rewrite Hc in E1 |- *.
    pose proof (unsquashfs_c_definition_None _ E0 E1) as Hl.
    unfold unsquashfs_c_rewrite, fnm_rewrite.
    destruct (negb _); [|by rewrite E0].
    unfold unsquashfs_c_definition.
    by rewrite has_definition_fnm_fix, E1, last_include_fnm_fix.
Qed.

(** The two rewritings of the consumer, one after the other. *)
Lemma consumer_rewrites_idem content :
  let g c := fnm_rewrite (unsquashfs_c_rewrite c) in
  g (g content) = g content.
Proof.
  intros g. unfold g. rewrite unsquashfs_c_rewrite_after_fnm.
  apply fnm_rewrite_idem.
Qed.


(** ** The monad and the file primitives *)

Section Monad.
Context {X : Type}.
Implicit Types (w : world X) (p : string).

Lemma bind_run {A B} (m : M X A) (f : A -> M X B) w :
  (m ≫= f) w = match m w with (Ret a, w') => f a w' | (Raise e, w') => (Raise e, w') end.
Proof. reflexivity. Qed.

Lemma bind_ret {A B} (m : M X A) (f : A -> M X B) w a w' :
  m w = (Ret a, w') -> (m ≫= f) w = f a w'.
Proof. intros E. by rewrite bind_run, E. Qed.

Lemma bind_raise {A B} (m : M X A) (f : A -> M X B) w e w' :
  m w = (Raise e, w') -> (m ≫= f) w = (Raise e, w').
Proof. intros E. by rewrite bind_run, E. Qed.

Lemma bind_ret_inv {A B} (m : M X A) (f : A -> M X B) w b w' :
  (m ≫= f) w = (Ret b, w') -> exists a w1, m w = (Ret a, w1) /\ f a w1 = (Ret b, w').
Proof. rewrite bind_run. destruct (m w) as [[a|e] w1]; [eauto|done]. Qed.

Lemma seq_run (a b : M X unit) w :
  (a;; b) w = match a w with (Ret _, w') => b w' | (Raise e, w') => (Raise e, w') end.
Proof. reflexivity. Qed.

Lemma os_call_some f w w' : f w = Some w' -> os_call f w = (Ret tt, w').
Proof. unfold os_call. by intros ->. Qed.

Lemma os_call_none f w : f w = None -> os_call f w = (Raise OSError, w).
Proof. unfold os_call. by intros ->. Qed.

Lemma path_exists_lookup p w :
  path_exists p w = match nodes w !! p with Some _ => true | None => false end.
Proof.
  unfold path_exists. destruct (nodes w !! p) eqn:E.
  - apply bool_decide_eq_true. eauto.
  - apply bool_decide_eq_false. intros [? ?]. congruence.
Qed.

Lemma set_file_same p c w : nodes w !! p = Some (File c) -> set_file p c w = w.
Proof. intros E. destruct w; unfold set_file; cbn in *. by rewrite insert_id. Qed.


Lemma nodes_set_file p c w : nodes (set_file p c w) !! p = Some (File c).
Proof. apply lookup_insert_eq. Qed.

Lemma nodes_set_file_ne p q c w : p <> q -> nodes (set_file p c w) !! q = nodes w !! q.
Proof. apply lookup_insert_ne. Qed.
End Monad.

(** ** The patch engine *)

Section Engine.
Context {X : Type}.
Implicit Types (w : world X) (p : string) (m : gmap string node).

Lemma apply_rule_run r w :
  apply_rule r w =
    match nodes w !! target r with
    | Some (File c) => (Ret tt, set_file (target r) (transform r c) w)
    | Some Dir => (Raise OSError, w)
    | None => (Ret tt, w)
    end.
Proof.
  unfold apply_rule. rewrite bind_run. unfold gets at 1. rewrite path_exists_lookup.
  destruct (nodes w !! target r) as [[c|]|] eqn:E; try reflexivity.
  - rewrite bind_run. unfold read_file, write_file. rewrite !E. reflexivity.
  - rewrite bind_run. unfold read_file. rewrite E. reflexivity.
Qed.

Lemma apply_rule_alter r w :
  apply_rule r w =
    (if is_dir (target r) (nodes w) then Raise OSError else Ret tt,
     World (alter (on_file (transform r)) (target r) (nodes w)) (spawned w) (machine w)).
Proof.
  rewrite apply_rule_run. unfold is_dir.
  destruct (nodes w !! target r) as [[c|]|] eqn:E.
  - unfold set_file. do 2 f_equal. apply map_eq. intros q.
    rewrite lookup_alter, lookup_insert. case_decide; [subst; by rewrite E|done].
  - destruct w; cbn in *. do 2 f_equal. apply map_eq. intros q.
    rewrite lookup_alter. case_decide; [subst; by rewrite E|done].
  - destruct w; cbn in *. do 2 f_equal. apply map_eq. intros q.
    rewrite lookup_alter. case_decide; [subst; by rewrite E|done].
Qed.

Lemma is_dir_alter f p q m : is_dir q (alter (on_file f) p m) = is_dir q m.
Proof.
  unfold is_dir. rewrite lookup_alter. case_decide; [subst|done].
  by destruct (m !! q) as [[]|].
Qed.

Lemma alter_dir f p m : is_dir p m = true -> alter (on_file f) p m = m.
Proof.
  unfold is_dir. intros E. apply map_eq. intros q. rewrite lookup_alter.
  case_decide; [subst|done]. by destruct (m !! q) as [[]|].
Qed.

Lemma passed_alter rs f p m : passed rs (alter (on_file f) p m) = passed rs m.
Proof. induction rs as [|r rs IH]; cbn; [done|]. by rewrite is_dir_alter, IH. Qed.

Lemma blocked_alter rs f p m : blocked rs (alter (on_file f) p m) = blocked rs m.
Proof.
  unfold blocked. induction rs as [|r rs IH]; cbn; [done|]. by rewrite is_dir_alter, IH.
Qed.

Lemma passed_patched rs L m : passed rs (patched L m) = passed rs m.
Proof.
  revert m. induction L as [|r L IH]; intros m; cbn; [done|].
  unfold patched in IH. by rewrite IH, passed_alter.
Qed.

(** Running a list of rules: the outcome and the files. *)
Lemma for_each_rules rs w :
  for_each rs apply_rule w =
    (if blocked rs (nodes w) then Raise OSError else Ret tt,
     World (patched (passed rs (nodes w)) (nodes w)) (spawned w) (machine w)).
Proof.
  revert w. induction rs as [|r rs IH]; intros w.
  { by destruct w. }
  cbn [for_each passed]. rewrite bind_run, apply_rule_alter.
  destruct (is_dir (target r) (nodes w)) eqn:Ed.
  - cbn [blocked existsb]. rewrite Ed, alter_dir by done. by destruct w.
  - rewrite IH. cbn [nodes spawned machine].
    rewrite passed_alter, blocked_alter. cbn [blocked existsb]. by rewrite Ed.
Qed.

Lemma blocked_patched rs L m : blocked rs (patched L m) = blocked rs m.
Proof.
  revert m. induction L as [|r L IH]; intros m; cbn; [done|].
  unfold patched in IH. by rewrite IH, blocked_alter.
Qed.

Lemma lookup_patched L m p :
  patched L m !! p = on_file (content_after L p) <$> m !! p.
Proof.
  revert m. induction L as [|r L IH]; intros m.
  - cbn. by destruct (m !! p) as [[]|].
  - change (patched (r :: L) m)
      with (patched L (alter (on_file (transform r)) (target r) m)).
    rewrite IH, lookup_alter.
    unfold content_after. cbn [foldl].
    destruct (decide (target r = p)) as [<-|Hne].
    + by destruct (m !! target r) as [[]|].
    + done.
Qed.

(** A second run of a list of rules changes nothing when, file by file,
    what the rules that ran have written is a fixed point of them. *)
Lemma for_each_rules_twice rs w :
  let w1 := snd (for_each rs apply_rule w) in
  (forall p c, nodes w !! p = Some (File c) ->
     let f := content_after (passed rs (nodes w)) p in f (f c) = f c) ->
  for_each rs apply_rule w1 = (fst (for_each rs apply_rule w), w1).
Proof.
  intros w1 Hf. subst w1. rewrite !for_each_rules. cbn [fst snd nodes spawned machine].
  rewrite passed_patched.
  rewrite blocked_patched.
  do 2 f_equal. apply map_eq. intros p. rewrite !lookup_patched.
  destruct (nodes w !! p) as [[c|]|] eqn:E; cbn; [|done|done].
  do 2 f_equal. by apply Hf.
Qed.

Lemma fix_error_header_rules w :
  fix_error_header w =
    (apply_rule (Rule "squashfs-tools/error.h" error_h_rewrite);;
     apply_rule (Rule "squashfs-tools/unsquashfs.c" unsquashfs_c_rewrite)) w.
Proof.
  transitivity
    ((apply_rule (Rule "squashfs-tools/error.h" error_h_rewrite);;
      (there ← gets (path_exists "squashfs-tools/unsquashfs.c");
       if there : bool then
         content ← read_file "squashfs-tools/unsquashfs.c";
         match unsquashfs_c_definition content with
         | Some content' => write_file "squashfs-tools/unsquashfs.c" content'
         | None => mret tt
         end
       else mret tt)) w); [reflexivity|].
  rewrite !(seq_run _ _ w).
  destruct (apply_rule _ w) as [[[]|e] w']; [|done].
  rewrite apply_rule_run. cbn [target transform].
  rewrite bind_run. unfold gets at 1. rewrite path_exists_lookup.
  destruct (nodes w' !! "squashfs-tools/unsquashfs.c"%string) as [[c|]|] eqn:E; try reflexivity.
  - rewrite bind_run. unfold read_file. rewrite E. unfold unsquashfs_c_rewrite.
    destruct (unsquashfs_c_definition c) as [c'|]; cbn [default].
    + unfold write_file. by rewrite E.
    + by rewrite set_file_same.
  - rewrite bind_run. unfold read_file. by rewrite E.
Qed.

Lemma fix_fnm_extmatch_rule w :
  fix_fnm_extmatch w = apply_rule (Rule "squashfs-tools/unsquashfs.c" fnm_rewrite) w.
Proof. reflexivity. Qed.

Lemma disable_xz_wrapper_rules w :
  disable_xz_wrapper w =
    (apply_rule (Rule "squashfs-tools/xz_wrapper.c" (fun _ => xz_marker));;
     apply_rule (Rule "squashfs-tools/xz_wrapper.h" (fun _ => xz_marker))) w.
Proof.
  assert (forall p w,
    (there ← gets (path_exists p);
     if there : bool then write_file p xz_marker else mret tt) w
    = apply_rule (Rule p (fun _ => xz_marker)) w) as Hone.
  { intros p w0. rewrite apply_rule_run. cbn [target transform].
    rewrite bind_run. unfold gets at 1. rewrite path_exists_lookup.
    unfold write_file. destruct (nodes w0 !! p) as [[c|]|] eqn:E; by rewrite ?E. }
  set (one p := (there ← gets (path_exists p);
                 if there : bool then write_file p xz_marker else mret tt) : M X unit).
  transitivity ((one "squashfs-tools/xz_wrapper.c"%string;;
                 one "squashfs-tools/xz_wrapper.h"%string;; mret tt) w); [reflexivity|].
  rewrite !(seq_run _ _ w). unfold one at 1. rewrite Hone.
  destruct (apply_rule _ w) as [[[]|e] w']; [|done].
  rewrite seq_run. unfold one. rewrite Hone.
  by destruct (apply_rule _ w') as [[[]|e] w''].
Qed.

Lemma fix_makefile_rule env w :
  fix_makefile env w =
    apply_rule (Rule "squashfs-tools/Makefile" (makefile_rewrite (prefix env))) w.
Proof.
  unfold fix_makefile, apply_rule.
  change (path_join "squashfs-tools" "Makefile") with "squashfs-tools/Makefile"%string.
  cbn [target transform]. rewrite !bind_run. unfold gets.
  by destruct (path_exists "squashfs-tools/Makefile" w).
Qed.

Lemma apply_universal_fixes_rules env w :
  apply_universal_fixes env w = for_each (universal_rules env) apply_rule w.
Proof.
  unfold apply_universal_fixes, universal_rules. cbn [for_each].
  rewrite seq_run, fix_error_header_rules, !(seq_run _ _ w).
  destruct (apply_rule _ w) as [[[]|e] w1]; [|reflexivity].
  rewrite (seq_run _ _ w1).
  destruct (apply_rule _ w1) as [[[]|e] w2]; [|reflexivity].
  rewrite !(seq_run _ _ w2), fix_fnm_extmatch_rule.
  destruct (apply_rule _ w2) as [[[]|e] w3]; [|reflexivity].
  rewrite !(seq_run _ _ w3), disable_xz_wrapper_rules, !(seq_run _ _ w3).
  destruct (apply_rule _ w3) as [[[]|e] w4]; [|reflexivity].
  rewrite !(seq_run _ _ w4).
  destruct (apply_rule _ w4) as [[[]|e] w5]; [|reflexivity].
  rewrite !(seq_run _ _ w5), fix_makefile_rule.
  by destruct (apply_rule _ w5) as [[[]|e] w6].
Qed.
End Engine.

(** ** The patch rules on a tree *)

Section Claims.
Context {X : Type}.
Implicit Types (w : world X) (p : string).

Lemma universal_rules_fixed env w p c :
  let w1 := snd (apply_universal_fixes env w) in
  (forall c1, nodes w1 !! "squashfs-tools/Makefile"%string = Some (File c1) ->
              recipe_settled (prefix env) c1 = true) ->
  nodes w !! p = Some (File c) ->
  let f := content_after (passed (universal_rules env) (nodes w)) p in
  f (f c) = f c.
Proof.
  intros w1 Hmk Hp f. subst f.
  assert (nodes w1 = patched (passed (universal_rules env) (nodes w)) (nodes w)) as Hw1.
  { unfold w1. by rewrite apply_universal_fixes_rules, for_each_rules. }
  revert Hw1. generalize w1 Hmk. clear w1 Hmk. intros w1 Hmk.
  unfold universal_rules. cbn [passed target].
  repeat match goal with
         | |- context [is_dir ?q ?m] => destruct (is_dir q m)
         end;
    intros Hw1; unfold content_after; cbn [foldl target transform];
    repeat case_decide; simplify_eq;
    auto using error_h_rewrite_idem, unsquashfs_c_rewrite_idem, fnm_rewrite_idem.
  all: try apply consumer_rewrites_idem.
  apply recipe_settled_fixed, Hmk.
  rewrite Hw1, lookup_patched, Hp. reflexivity.
Qed.

(** C1 (amended): run on the tree that a first run of
    [apply_universal_fixes] left, a second run ends the same way and leaves
    every file, byte for byte, as it was, provided the recipe that the
    first run wrote has nothing left for the recipe sub-rules to match
    (no [-Werror], no [-DXZ_SUPPORT], and its CFLAGS and LIBS trigger lines
    already the rewritten ones).  Rule by rule: the header rewrite, the
    consumer insertion and the macro shim applied twice equal applying
    them once on every text, and so does the recipe rewrite on every text
    whose rewritten form is settled in that sense. *)
Theorem fixes_twice_same env w :
  let w1 := snd (apply_universal_fixes env w) in
  (forall c, nodes w1 !! "squashfs-tools/Makefile"%string = Some (File c) ->
             recipe_settled (prefix env) c = true) ->
  apply_universal_fixes env w1 = (fst (apply_universal_fixes env w), w1)
  /\ (forall c, error_h_rewrite (error_h_rewrite c) = error_h_rewrite c)
  /\ (forall c, unsquashfs_c_rewrite (unsquashfs_c_rewrite c) = unsquashfs_c_rewrite c)
  /\ (forall c, fnm_rewrite (fnm_rewrite c) = fnm_rewrite c)
  /\ (forall c, recipe_settled (prefix env) (makefile_rewrite (prefix env) c) = true ->
        makefile_rewrite (prefix env) (makefile_rewrite (prefix env) c)
        = makefile_rewrite (prefix env) c).
Proof.
  intros w1 Hmk. split.
  - subst w1. rewrite !apply_universal_fixes_rules.
    apply for_each_rules_twice. intros p c Hp.
    by apply (universal_rules_fixed env w p c).
  - auto using error_h_rewrite_idem, unsquashfs_c_rewrite_idem, fnm_rewrite_idem,
      recipe_settled_fixed.
Qed.

(** C6: whatever the codec source and header held, after
    [disable_xz_wrapper] each of the two files that existed holds exactly
    the marker line, a file that did not exist is not created, and no
    other file changes. *)
Theorem disable_xz_wrapper_overwrites w :
  let w1 := snd (disable_xz_wrapper w) in
  nodes w !! "squashfs-tools/xz_wrapper.c"%string <> Some Dir ->
  nodes w !! "squashfs-tools/xz_wrapper.h"%string <> Some Dir ->
  disable_xz_wrapper w = (Ret tt, w1)
  /\ (forall p, p = "squashfs-tools/xz_wrapper.c"%string
                \/ p = "squashfs-tools/xz_wrapper.h"%string ->
        match nodes w !! p with
        | Some _ => nodes w1 !! p = Some (File xz_marker)
        | None => nodes w1 !! p = None
        end)
  /\ (forall p, p <> "squashfs-tools/xz_wrapper.c"%string ->
                p <> "squashfs-tools/xz_wrapper.h"%string ->
                nodes w1 !! p = nodes w !! p).
Proof.
  intros w1 Hc Hh. subst w1. rewrite disable_xz_wrapper_rules, seq_run.
  rewrite !apply_rule_run. cbn [target transform].
  destruct (nodes w !! "squashfs-tools/xz_wrapper.c"%string) as [[c|]|] eqn:Ec; [|done|].
  - rewrite apply_rule_run. cbn [target transform].
    rewrite nodes_set_file_ne by done.
    destruct (nodes w !! "squashfs-tools/xz_wrapper.h"%string) as [[h|]|] eqn:Eh; [|done|].
    + cbn [snd]. repeat split.
      * intros p [->| ->]; rewrite ?Ec, ?Eh.
        -- rewrite nodes_set_file_ne by done. apply nodes_set_file.
        -- apply nodes_set_file.
      * intros p H1 H2. by rewrite !nodes_set_file_ne.
    + cbn [snd]. repeat split.
      * intros p [->| ->]; rewrite ?Ec, ?Eh.
        -- apply nodes_set_file.
        -- by rewrite nodes_set_file_ne.
      * intros p H1 H2. by rewrite !nodes_set_file_ne.
  - rewrite apply_rule_run. cbn [target transform].
    destruct (nodes w !! "squashfs-tools/xz_wrapper.h"%string) as [[h|]|] eqn:Eh; [|done|].
    + cbn [snd]. repeat split.
      * intros p [->| ->]; rewrite ?Ec, ?Eh.
        -- by rewrite nodes_set_file_ne.
        -- apply nodes_set_file.
      * intros p H1 H2. by rewrite !nodes_set_file_ne.
    + cbn [snd]. repeat split.
      * intros p [->| ->]; by rewrite ?Ec, ?Eh.
Qed.



End Claims.

(** C1, counterexample: the first run deletes the inner [-Werror] of
    [-Wer-Werrorror] and so writes a new [-Werror], which the second run
    deletes: the recipe after two runs is not the recipe after one. *)
Lemma spliced_recipe_changes_twice :
  let w1 := snd (apply_universal_fixes Examples.debian Examples.spliced_tree) in
  let w2 := snd (apply_universal_fixes Examples.debian w1) in
  nodes w1 !! "squashfs-tools/Makefile"%string = Some (File "CFLAGS += -Werror")
  /\ nodes w2 !! "squashfs-tools/Makefile"%string = Some (File "CFLAGS += ")
  /\ nodes w2 <> nodes w1.
Proof.
  split; [run_model|]. split; [run_model|].
  intros E. apply (f_equal (fun m => m !! "squashfs-tools/Makefile"%string)) in E.
  vm_compute in E. discriminate.
Qed.

(** The sample tree: its recipe is settled after one run. *)
Lemma fixes_twice_same_witness :
  let w1 := snd (apply_universal_fixes Examples.debian Examples.sample_tree) in
  apply_universal_fixes Examples.debian w1 = (Ret tt, w1).
Proof.
  refine (proj1 (fixes_twice_same Examples.debian Examples.sample_tree _)).
  intros c E. vm_compute in E. injection E as <-. run_model.
Defined.

(** The codec source of the sample tree. *)
Lemma disable_xz_wrapper_overwrites_witness :
  nodes (snd (disable_xz_wrapper Examples.sample_tree))
    !! "squashfs-tools/xz_wrapper.c"%string = Some (File xz_marker).
Proof.
  refine (proj1 (proj2 (disable_xz_wrapper_overwrites Examples.sample_tree _ _))
            "squashfs-tools/xz_wrapper.c"%string (or_introl eq_refl)).
  - vm_compute. discriminate.
  - vm_compute. discriminate.
Defined.




(** ** The recipe rewrite *)

(** C2 (amended): for a prefix without line break and without
    [-DXZ_SUPPORT], the rewritten recipe has one line for each line of the
    old one, namely what [recipe_line] makes of the old line with its
    occurrences of [-Werror] deleted (one pass from the left, occurrences
    that do not overlap; the text between them is kept).  On such a line: if
    it starts with [CFLAGS] and contains [./LZMA] it is replaced as a whole
    by the fixed CFLAGS line with [-I<prefix>/include] and the legacy
    directories; if it starts with [LIBS +=] and contains [-llzma] it is
    replaced as a whole by the fixed LIBS line with [-L<prefix>/lib] and
    [-llzmalib]; any other line loses its occurrences of [-DXZ_SUPPORT] (one
    pass, the text between them is kept); a line with none of the four is
    untouched. *)
Theorem recipe_rewrite_by_line (p : string) (content : str) :
  nl ∉ (p : str) ->
  contains "-DXZ_SUPPORT" p = false ->
  split_lines (makefile_rewrite p content) =
    map (fun l => recipe_line p (replace "-Werror" [] l)) (split_lines content)
  /\ (forall l, exists pieces,
        l = join_with "-Werror" pieces /\ replace "-Werror" [] l = concat pieces)
  /\ (forall l, is_cflags l = true -> recipe_line p l = cflags_line p)
  /\ (forall l, is_libs l = true -> recipe_line p l = libs_line p)
  /\ (forall l, is_cflags l = false -> is_libs l = false ->
        recipe_line p l = replace "-DXZ_SUPPORT" [] l
        /\ exists pieces,
            l = join_with "-DXZ_SUPPORT" pieces /\ recipe_line p l = concat pieces)
  /\ (forall l, contains "-Werror" l = false -> is_cflags l = false ->
        is_libs l = false -> has_xz l = false ->
        recipe_line p (replace "-Werror" [] l) = l).
Proof.
  intros Hp Hxz. repeat apply conj.
  - rewrite makefile_rewrite_lines, split_join.
    + rewrite replace_split by (done || by_decide). by rewrite map_map.
    + pose proof (split_lines_nonempty (replace "-Werror" [] content)).
      by destruct (split_lines _).
    + apply Forall_map. eapply Forall_impl; [apply split_lines_all_free|].
      intros l Hl. by apply recipe_line_free.
  - intros l. by apply replace_pieces.
  - intros l. by apply recipe_line_cflags.
  - intros l. by apply recipe_line_libs.
  - intros l E1 E2. split; [by apply recipe_line_other|].
    rewrite recipe_line_other by done. by apply replace_pieces.
  - intros l E0 E1 E2 E3. rewrite replace_absent by done.
    rewrite recipe_line_other by done. by apply replace_absent.
Qed.

(** C2, counterexample: a CFLAGS line that names the legacy directory is
    replaced as a whole, so its other flags are lost; and deleting the inner
    [-Werror] of [-Wer-Werrorror] leaves a [-Werror] behind. *)
Lemma recipe_rewrite_drops_flags :
  contains "-Wall" "CFLAGS = -Wall -Werror -I./LZMA" = true
  /\ contains "-Wall" (makefile_rewrite "/usr" "CFLAGS = -Wall -Werror -I./LZMA") = false
  /\ makefile_rewrite "/usr" "-Wer-Werrorror" = "-Werror".
Proof. vm_compute. done. Qed.

(** The sample recipe with the prefix [/usr]. *)
Lemma recipe_rewrite_by_line_witness :
  split_lines (makefile_rewrite "/usr" Examples.sample_makefile) =
    [ ("INCLUDEDIR = -I." : str); cflags_line "/usr"; libs_line "/usr";
      ("CFLAGS +=  -DCOMP_DEFAULT=gzip" : str) ].
Proof.
  rewrite (proj1 (recipe_rewrite_by_line "/usr" Examples.sample_makefile
                    ltac:(by_decide) ltac:(reflexivity))).
  vm_compute. reflexivity.
Defined.

(** ** The driver *)

Section Driver.
Context {X : Type} (H : host X).
Implicit Types (w : world X) (p : string).

Lemma run_cmd_run cmd check silent w :
  run_cmd H cmd check silent w =
    let '(c, w') := sh H cmd (environ H) w in
    let w'' := record_spawn cmd (environ H) w' in
    match c with
    | Exited rc =>
        (Ret (if check && negb (rc =? 0)%Z then None else Some (Completed rc)), w'')
    | Interrupted => (Raise KeyboardInterrupt, w'')
    | SpawnFailed => (Raise OSError, w'')
    end.
Proof.
  unfold run_cmd, try_except. rewrite bind_run. unfold subprocess_run. cbn [default].
  destruct (sh H cmd (environ H) w) as [[rc| |] w']; try reflexivity.
  destruct (check && negb (rc =? 0)%Z); reflexivity.
Qed.

(** The world in which the build result is read. *)
Lemma build_and_deploy_run env w w1 w2 r0 rc w3 :
  os_chdir H "squashfs-tools" w = Some w1 ->
  run_cmd H "make clean" false true w1 = (Ret r0, w2) ->
  sh H (make_cmd H w2) (environ H) w2 = (Exited rc, w3) ->
  let w4 := record_spawn (make_cmd H w2) (environ H) w3 in
  build_and_deploy H env w =
    if (rc =? 0)%Z && path_exists "sasquatch" w3
    then match copy H "sasquatch" "../../sasquatch_binary" w4 with
         | Some w5 =>
             (Ret true,
              if is_termux env
              then snd (try_except
                     (os_call (copy H "sasquatch" (prefix env ++ "/bin/sasquatch"));;
                      os_call (chmod H (prefix env ++ "/bin/sasquatch")))
                     (fun e => if is_Exception e then Some (mret tt) else None) w5)
              else w5)
         | None => (Raise OSError, w4)
         end
    else (Ret false, w4).
Proof.
  intros E1 E2 E3 w4. unfold build_and_deploy.
  rewrite (bind_ret _ _ _ _ _ (os_call_some _ _ _ E1)).
  rewrite (bind_ret _ _ _ _ _ E2). cbv beta.
  rewrite bind_run. unfold gets at 1. cbv beta iota.
  rewrite bind_run, run_cmd_run. fold (make_cmd H w2). rewrite E3. cbv zeta. fold w4.
  cbv beta iota.
  rewrite bind_run. unfold gets at 1. cbv beta iota.
  change (path_exists "sasquatch" w4) with (path_exists "sasquatch" w3).
  destruct (rc =? 0)%Z eqn:Erc; cbn [andb negb returncode]; rewrite ?Erc; cbn [andb].
  2: { reflexivity. }
  destruct (path_exists "sasquatch" w3); [|reflexivity].
  rewrite bind_run. unfold os_call at 1.
  destruct (copy H "sasquatch" "../../sasquatch_binary" w4) as [w5|]; [|reflexivity].
  rewrite bind_run.
  destruct (is_termux env); [|reflexivity].
  unfold try_except. rewrite bind_run. unfold os_call.
  destruct (copy H "sasquatch" _ w5) as [w6|]; [|reflexivity].
  destruct (chmod H _ w6) as [w7|]; reflexivity.
Qed.

Lemma exit_status_body w :
  exit_status H w =
    match fst (main_body H w) with
    | Ret _ => 0
    | Raise KeyboardInterrupt => 130
    | Raise (SystemExit code) => code
    | Raise (OSError | CalledProcessError _) => 1
    end%Z.
Proof.
  unfold exit_status, main, try_except.
  destruct (main_body H w) as [[?|[]] ?]; reflexivity.
Qed.

Lemma main_body_to_fixes w env w1 w2 w3 :
  detect_env H w = env ->
  install_deps H env w = (Ret tt, w1) ->
  setup_source H w1 = (Ret tt, w2) ->
  apply_patches H w2 = (Ret tt, w3) ->
  main_body H w =
    (apply_universal_fixes env;;
     success ← build_and_deploy H env;
     if success : bool then sys_exit 0 else sys_exit 1) w3.
Proof.
  intros E0 E1 E2 E3. unfold main_body.
  rewrite bind_run. unfold gets at 1. cbv beta iota. rewrite E0.
  rewrite (bind_ret _ _ _ _ _ E1). cbv beta.
  rewrite (bind_ret _ _ _ _ _ E2). cbv beta.
  rewrite (bind_ret _ _ _ _ _ E3). reflexivity.
Qed.

Lemma normal_run_exit w env w1 w2 w3 w4 w5 r0 w6 rc w7 :
  detect_env H w = env ->
  install_deps H env w = (Ret tt, w1) ->
  setup_source H w1 = (Ret tt, w2) ->
  apply_patches H w2 = (Ret tt, w3) ->
  apply_universal_fixes env w3 = (Ret tt, w4) ->
  os_chdir H "squashfs-tools" w4 = Some w5 ->
  run_cmd H "make clean" false true w5 = (Ret r0, w6) ->
  sh H (make_cmd H w6) (environ H) w6 = (Exited rc, w7) ->
  exit_status H w =
    if (rc =? 0)%Z && path_exists "sasquatch" w7
    then match copy H "sasquatch" "../../sasquatch_binary"
                 (record_spawn (make_cmd H w6) (environ H) w7) with
         | Some _ => 0%Z
         | None => 1%Z
         end
    else 1%Z.
Proof.
  intros E0 E1 E2 E3 E4 E5 E6 E7.
  rewrite exit_status_body, (main_body_to_fixes _ _ _ _ _ E0 E1 E2 E3).
  rewrite (bind_ret _ _ _ _ _ E4). cbv beta.
  rewrite bind_run, (build_and_deploy_run env _ _ _ _ _ _ E5 E6 E7).
  destruct ((rc =? 0)%Z && path_exists "sasquatch" w7); [|reflexivity].
  destruct (copy H _ _ _); reflexivity.
Qed.




(** C10: a child that exits with a non-zero status never makes [run_cmd]
    raise: with [check] set (the default, used for the download and the
    extraction) the error is caught and [None] returned, without [check]
    the completed process is returned.  So [setup_source] returns normally
    whatever the exit statuses of its three commands are, and a run whose
    source directory is then missing ends with exit status 1 only at the
    later [os.chdir]. *)
Theorem failed_command_does_not_raise :
  (forall cmd check silent w rc w',
      sh H cmd (environ H) w = (Exited rc, w') -> rc <> 0%Z ->
      run_cmd H cmd check silent w =
        (Ret (if check then None else Some (Completed rc)),
         record_spawn cmd (environ H) w'))
  /\ (forall w w1 w2 w3 rc1 w4 rc2 w5 rc3 w6,
        (if path_exists BUILD_DIR w then rmtree H BUILD_DIR w else Some w) = Some w1 ->
        makedirs H BUILD_DIR w1 = Some w2 ->
        os_chdir H BUILD_DIR w2 = Some w3 ->
        sh H ("git clone " ++ REPO_URL ++ " repo") (environ H) w3 = (Exited rc1, w4) ->
        sh H ("wget -q " ++ SQUASHFS_URL) (environ H)
           (record_spawn ("git clone " ++ REPO_URL ++ " repo") (environ H) w4)
          = (Exited rc2, w5) ->
        sh H "tar -zxf squashfs4.3.tar.gz" (environ H)
           (record_spawn ("wget -q " ++ SQUASHFS_URL) (environ H) w5)
          = (Exited rc3, w6) ->
        setup_source H w =
          (Ret tt, record_spawn "tar -zxf squashfs4.3.tar.gz" (environ H) w6))
  /\ (forall w env w1 w2,
        detect_env H w = env ->
        install_deps H env w = (Ret tt, w1) ->
        setup_source H w1 = (Ret tt, w2) ->
        os_chdir H "squashfs4.3" w2 = None ->
        exit_status H w = 1%Z).
Proof.
  split; [|split].
  - intros cmd check silent w rc w' E Hrc. rewrite run_cmd_run, E. cbv zeta.
    destruct (Z.eqb_spec rc 0) as [|_]; [done|]. by destruct check.
  - intros w w1 w2 w3 rc1 w4 rc2 w5 rc3 w6 E1 E2 E3 E4 E5 E6.
    unfold setup_source. rewrite bind_run. unfold gets at 1. cbv beta iota.
    assert ((if path_exists BUILD_DIR w then os_call (rmtree H BUILD_DIR) else mret tt) w
            = (Ret tt, w1)) as Er.
    { destruct (path_exists BUILD_DIR w); [by apply os_call_some|]. by injection E1 as ->. }
    rewrite (bind_ret _ _ _ _ _ Er). cbv beta.
    rewrite (bind_ret _ _ _ _ _ (os_call_some _ _ _ E2)). cbv beta.
    rewrite (bind_ret _ _ _ _ _ (os_call_some _ _ _ E3)). cbv beta.
    rewrite bind_run, run_cmd_run, E4. cbv beta iota zeta.
    rewrite bind_run, run_cmd_run, E5. cbv beta iota zeta.
    rewrite bind_run, run_cmd_run, E6. reflexivity.
  - intros w env w1 w2 E0 E1 E2 E3.
    rewrite exit_status_body. unfold main_body.
    rewrite bind_run. unfold gets at 1. cbv beta iota. rewrite E0.
    rewrite (bind_ret _ _ _ _ _ E1). cbv beta.
    rewrite (bind_ret _ _ _ _ _ E2). cbv beta.
    assert (apply_patches H w2 = (Raise OSError, w2)) as Ep.
    { unfold apply_patches. by rewrite (bind_raise _ _ _ _ _ (os_call_none _ _ E3)). }
    by rewrite (bind_raise _ _ _ _ _ Ep).
Qed.

(** C4 (amended): on a host with no Termux marker and no resolvable
    package manager [detect_env] returns, without failing and without
    changing anything, the profile with no package manager, no required
    package and the install prefix [/usr/local]. *)
Theorem detect_env_unknown w :
  path_exists "/data/data/com.termux" w = false ->
  contains "com.termux" (default ""%string (environ H !! "PREFIX")) = false ->
  which H "apt" w = false -> which H "pacman" w = false ->
  which H "dnf" w = false -> which H "apk" w = false ->
  gets (detect_env H) w =
    (Ret (EnvInfo (lower (platform_system H)) false "/usr/local" None []), w).
Proof.
  intros E1 E2 E3 E4 E5 E6. unfold gets, detect_env.
  by rewrite E1, E2, E3, E4, E5, E6.
Qed.
End Driver.

(** C4, counterexample: on such a host the prefix is not [/usr]. *)
Lemma detect_env_unknown_prefix :
  let H := Scripted.host_of Examples.bare in
  path_exists "/data/data/com.termux" Scripted.start = false
  /\ contains "com.termux" (default ""%string (environ H !! "PREFIX")) = false
  /\ (forall p, which H p Scripted.start = false)
  /\ pkg_mgr (detect_env H Scripted.start) = None
  /\ packages (detect_env H Scripted.start) = []
  /\ prefix (detect_env H Scripted.start) <> "/usr"%string.
Proof. vm_compute. repeat split; discriminate. Qed.

(** A machine without Termux and without package manager. *)
Lemma detect_env_unknown_witness :
  gets (detect_env (Scripted.host_of Examples.bare)) Scripted.start =
    (Ret (EnvInfo "linux" false "/usr/local" None []), Scripted.start).
Proof. apply (detect_env_unknown (Scripted.host_of Examples.bare) Scripted.start); reflexivity. Defined.




(** The machine on which every command fails. *)
Lemma failed_command_does_not_raise_witness :
  run_cmd Examples.offline ("wget -q " ++ SQUASHFS_URL) true false Scripted.start
    = (Ret None, record_spawn ("wget -q " ++ SQUASHFS_URL) ∅ Scripted.start)
  /\ fst (setup_source Examples.offline Scripted.start) = Ret tt
  /\ exit_status Examples.offline Scripted.start = 1%Z.
Proof.
  destruct (failed_command_does_not_raise Examples.offline) as (Hrun & Hsetup & Hexit).
  split; [|split].
  - apply (Hrun _ true false Scripted.start 1%Z Scripted.start); [reflexivity | discriminate].
  - erewrite Hsetup; [reflexivity|..].
    1: run_model. 1: run_model. 1: run_model. 1: run_model. 1: run_model. run_model.
  - eapply Hexit. 1: run_model. 1: run_model. 1: run_model. run_model.
Defined.

(** The job count: the number of cores, and 2 when it is not known. *)
Lemma nproc_of_spec :
  nproc_of None = 2 /\ nproc_of (Some 0) = 2 /\ forall n, nproc_of (Some (S n)) = S n.
Proof. by repeat split. Qed.

(** C9: on Termux, with an environment that sets neither CC nor CXX, the
    build is started as [make -j8] for eight cores, but in the environment
    of the script itself: [build_env] is computed and never passed on, so
    the child sees neither [CC=clang] nor [CXX=clang++]. *)
Theorem termux_build_without_overrides :
  let H := Scripted.host_of Examples.termux_phone in
  is_termux (detect_env H Scripted.start) = true
  /\ exists inv,
      last (spawned (snd (main H Scripted.start))) = Some inv
      /\ inv_cmd inv = "make -j8"%string
      /\ inv_env inv = environ H
      /\ inv_env inv !! "CC"%string = None
      /\ inv_env inv !! "CXX"%string = None.
Proof. split; [run_model|]. eexists. repeat split; run_model. Qed.

(** * Further properties of the code *)

(** ** The header after the duplicate-symbol rule *)

Lemma defined_here_run b s :
  defined_here b s = match (if b then run S0 s else None) with Some _ => true | None => false end.
Proof. unfold defined_here. by rewrite match_at_run. Qed.

Lemma definition_at_line_start_cons b c t :
  definition_at_line_start b (c :: t)
  = defined_here b (c :: t) || definition_at_line_start (is_nl c) t.
Proof. reflexivity. Qed.

Lemma no_definition_sub0 s b : definition_at_line_start b s = false -> sub0 b s = s.
Proof.
  revert b. induction s as [|c t IH]; intros b E; rewrite sub_step.
  { by destruct b. }
  rewrite definition_at_line_start_cons in E. apply orb_false_iff in E as [E1 E2].
  rewrite defined_here_run in E1.
  destruct (if b then run S0 (c :: t) else None); [done|].
  f_equal. by apply IH.
Qed.

Lemma definition_at_line_start_copy (u o : str) :
  nl ∉ u -> definition_at_line_start false (u ++ o) = definition_at_line_start false o.
Proof.
  induction u as [|x u IH]; [done|]. intros [Hx Hu]%not_elem_of_cons.
  cbn [app]. rewrite definition_at_line_start_cons, defined_here_run. cbn [orb].
  apply is_nl_false' in Hx. rewrite Hx. by apply IH.
Qed.

Lemma definition_at_line_start_extern b o :
  definition_at_line_start b (extern_declaration ++ o) = definition_at_line_start false o.
Proof.
  change (extern_declaration ++ o) with ("e"%char :: list_ascii_of_string "xtern int verbose;" ++ o).
  rewrite definition_at_line_start_cons, defined_here_run.
  assert ((if b then run S0 ("e"%char :: list_ascii_of_string "xtern int verbose;" ++ o) else None) = None) as ->
    by (by destruct b).
  cbn [orb]. change (is_nl "e") with false.
  apply definition_at_line_start_copy. by_decide.
Qed.

Lemma sub0_no_definition s b : definition_at_line_start b (sub0 b s) = false.
Proof.
  remember (length s) as n eqn:Hn. revert s b Hn.
  induction n as [n IH] using lt_wf_ind. intros s b ->.
  rewrite (sub_step b s).
  destruct (if b then run S0 s else None) as [rest|] eqn:Em.
  - rewrite definition_at_line_start_extern.
    assert (run S0 s = Some rest) as (m & ->)%run_accepts by (by destruct b).
    eapply IH; [|done]. rewrite length_app. cbn. lia.
  - destruct s as [|x t]; [by destruct b|].
    rewrite definition_at_line_start_cons, defined_here_run.
    assert ((if b then run S0 (x :: sub0 (is_nl x) t) else None) = None) as ->.
    { destruct b; [|done]. cbn [run] in Em |- *.
      destruct (step S0 x) as [q'| |] eqn:Es; [|done|done].
      apply run_none_sub; [|done]. intros Hx. eapply step_space; [done|].
      by apply isspace_nl. }
    cbn [orb]. eapply IH; [|done]. cbn. lia.
Qed.

(** The scan of [definition_at_line_start], position by position. *)
Lemma definition_at_line_start_spec b s :
  definition_at_line_start b s = true <->
  exists pre suf rest,
    s = pre ++ suf /\ (pre = [] -> b = true) /\ (pre <> [] -> last pre = Some nl)
    /\ match_at verbose_definition true suf = Some rest.
Proof.
  revert b. induction s as [|c t IH]; intros b.
  - split.
    { cbn [definition_at_line_start]. rewrite defined_here_run. by destruct b. }
    intros (pre & suf & rest & E & _ & _ & Hm).
    symmetry in E. apply app_eq_nil in E as [_ ->]. by rewrite match_at_run in Hm.
  - rewrite definition_at_line_start_cons, orb_true_iff, IH. split.
    + intros [E|(pre & suf & rest & -> & Hb & Hl & Hm)].
      * unfold defined_here in E. destruct b; [|by rewrite match_at_run in E].
        destruct (match_at verbose_definition true (c :: t)) as [rest|] eqn:Em; [|done].
        by exists [], (c :: t), rest.
      * exists (c :: pre), suf, rest. repeat split; [done| |done].
        intros _. destruct pre as [|y pre].
        -- cbn. f_equal. apply is_nl_true. by apply Hb.
        -- by apply Hl.
    + intros (pre & suf & rest & E & Hb & Hl & Hm). destruct pre as [|y pre].
      * left. cbn in E. subst suf. rewrite (Hb eq_refl). unfold defined_here. by rewrite Hm.
      * right. injection E as -> ->. exists pre, suf, rest. repeat split; [|..|done].
        -- intros ->. specialize (Hl ltac:(done)). cbn in Hl. injection Hl as ->. done.
        -- intros Hne. specialize (Hl ltac:(done)). by destruct pre.
Qed.

(** X1: [fix_error_header] writes the header back unchanged exactly when
    no position at the start of one of its lines matches the pattern of
    the rule; a definition elsewhere on a line, or of another name, is
    not touched. *)
Theorem header_without_definition_unchanged (h : str) :
  error_h_rewrite h = h <-> definition_at_line_start true h = false.
Proof.
  split.
  - intros <-. apply sub0_no_definition.
  - apply no_definition_sub0.
Qed.

(** X2: in the header that [fix_error_header] has written, no position
    at the start of a line matches the pattern any more: every definition
    the rule could see has been replaced. *)
Theorem header_rewrite_leaves_no_definition (h pre suf : str) :
  error_h_rewrite h = pre ++ suf ->
  pre = [] \/ last pre = Some nl ->
  match_at verbose_definition true suf = None.
Proof.
  intros E Hpre.
  destruct (match_at verbose_definition true suf) as [rest|] eqn:Em; [|done].
  pose proof (sub0_no_definition h true) as Hno.
  change (sub0 true h) with (error_h_rewrite h) in Hno. rewrite E in Hno.
  apply not_true_iff_false in Hno. exfalso. apply Hno.
  apply definition_at_line_start_spec. exists pre, suf, rest.
  split; [done|]. split; [done|]. split; [|done]. intros Hne. by destruct Hpre.
Qed.

(** The sample header: after the rewrite neither its declaration line nor
    its last line matches. *)
Lemma header_rewrite_leaves_no_definition_witness :
  match_at verbose_definition true ("extern int verbose;" ++ nl :: "#endif") = None
  /\ match_at verbose_definition true ("#endif" : str) = None.
Proof.
  split.
  - apply (header_rewrite_leaves_no_definition Examples.sample_header
             ("#ifndef ERROR_H" ++ nl :: "#define ERROR_H" ++ [nl])
             ("extern int verbose;" ++ nl :: "#endif")); [run_model|by right].
  - apply (header_rewrite_leaves_no_definition Examples.sample_header
             ("#ifndef ERROR_H" ++ nl :: "#define ERROR_H" ++ nl :: "extern int verbose;" ++ [nl])
             ("#endif" : str)); [run_model|by right].
Defined.

Lemma run_space (ws s : str) :
  Forall (fun c => isspace c = true) ws -> run S0 (ws ++ s) = run S0 s.
Proof.
  induction 1 as [|c ws Hc _ IH]; [done|]. cbn [app run step]. by rewrite Hc.
Qed.

(** X3: [\s*] at the head of the pattern also takes line breaks.  When
    only white space stands before a definition at the start of the
    header, blank lines and indentation included, the declaration
    replaces the white space together with the definition. *)
Theorem header_definition_after_space (ws m post : str) :
  Forall (fun c => isspace c = true) ws ->
  match_at verbose_definition true (m ++ post) = Some post ->
  error_h_rewrite (ws ++ m ++ post) = extern_declaration ++ sub0 false post.
Proof.
  intros Hws Hm. rewrite match_at_run in Hm.
  change (error_h_rewrite (ws ++ m ++ post)) with (sub0 true (ws ++ m ++ post)).
  by rewrite sub_step, run_space, Hm.
Qed.

(** Two blank lines and an indentation before the definition. *)
Lemma header_definition_after_space_witness :
  error_h_rewrite (nl :: nl :: "  int verbose=0;" ++ nl :: "#endif")
  = "extern int verbose;" ++ nl :: "#endif".
Proof.
  apply (header_definition_after_space [nl; nl; " "; " "]%char "int verbose=0;"
           (nl :: "#endif")); [by repeat constructor|run_model].
Defined.

(** X4: [content.split('\n')] followed by ['\n'.join(lines)], as in
    [fix_makefile] and [fix_error_header], gives the text back; the split
    never yields an empty list, none of its lines holds a line break, and
    joining such lines and splitting again gives the lines back.  So the
    lines the rules leave alone are written back byte for byte, a final
    line break included. *)
Theorem lines_round_trip :
  (forall s, join_lines (split_lines s) = s)
  /\ (forall ls, ls <> [] -> Forall (fun l => nl ∉ l) ls -> split_lines (join_lines ls) = ls)
  /\ (forall s, split_lines s <> [] /\ Forall (fun l => nl ∉ l) (split_lines s)).
Proof.
  split; [apply join_split|]. split; [apply split_join|].
  intros s. split; [apply split_lines_nonempty|apply split_lines_all_free].
Qed.

(** ** The whole pass of the patch engine *)

Section Fixes.
Context {X : Type}.
Implicit Types (w : world X) (p : string) (m : gmap string node).

Lemma passed_sub rs m r : r ∈ passed rs m -> r ∈ rs.
Proof.
  induction rs as [|r' rs IH]; cbn; [done|].
  destruct (is_dir (target r') m); [by intros ?%not_elem_of_nil|].
  intros [->|?]%elem_of_cons; [left|right; auto].
Qed.

Lemma passed_all rs m : blocked rs m = false -> passed rs m = rs.
Proof.
  unfold blocked. induction rs as [|r rs IH]; cbn; [done|].
  intros [-> E]%orb_false_iff. by rewrite IH.
Qed.

Lemma content_after_other L p c :
  (forall r, r ∈ L -> target r <> p) -> content_after L p c = c.
Proof.
  unfold content_after. revert c. induction L as [|r L IH]; intros c Hr; [done|].
  cbn [foldl]. rewrite decide_False by (apply Hr; left).
  apply IH. intros r' ?. apply Hr. by right.
Qed.

Lemma apply_universal_fixes_nodes env w :
  nodes (snd (apply_universal_fixes env w))
  = patched (passed (universal_rules env) (nodes w)) (nodes w).
Proof. by rewrite apply_universal_fixes_rules, for_each_rules. Qed.


(** X6: [apply_universal_fixes] starts no process, creates no path and
    removes none, leaves every directory a directory, and changes nothing
    outside the five files it patches. *)
Theorem apply_universal_fixes_frame env w :
  let w1 := snd (apply_universal_fixes env w) in
  spawned w1 = spawned w /\ machine w1 = machine w
  /\ (forall p, nodes w1 !! p = None <-> nodes w !! p = None)
  /\ (forall p, nodes w1 !! p = Some Dir <-> nodes w !! p = Some Dir)
  /\ (forall p, p ∉ fix_targets -> nodes w1 !! p = nodes w !! p).
Proof.
  intros w1.
  assert (forall p, nodes w1 !! p
            = on_file (content_after (passed (universal_rules env) (nodes w)) p)
                <$> nodes w !! p) as Hl.
  { intros p. unfold w1. by rewrite apply_universal_fixes_nodes, lookup_patched. }
  split; [|split; [|split; [|split]]].
  - unfold w1. by rewrite apply_universal_fixes_rules, for_each_rules.
  - unfold w1. by rewrite apply_universal_fixes_rules, for_each_rules.
  - intros p. rewrite Hl. by destruct (nodes w !! p) as [[]|].
  - intros p. rewrite Hl. by destruct (nodes w !! p) as [[]|].
  - intros p Hp. rewrite Hl. destruct (nodes w !! p) as [[c|]|]; [|done|done].
    change (Some (File (content_after (passed (universal_rules env) (nodes w)) p c))
            = Some (File c)).
    rewrite content_after_other; [done|].
    intros r Hr%passed_sub Heq. apply Hp. subst p.
    unfold universal_rules in Hr. unfold fix_targets.
    repeat (apply elem_of_cons in Hr as [->|Hr]; [cbn [target]; by_decide|]).
    by apply not_elem_of_nil in Hr.
Qed.


(** X8: after a pass of [apply_universal_fixes] that returned normally,
    [unsquashfs.c] starts with [#ifndef FNM_EXTMATCH]; it holds
    [int verbose = 0;] if it held it before or has a line that is an
    include directive, and does not hold it otherwise. *)
Theorem consumer_after_fixes env w (consumer : str) :
  fst (apply_universal_fixes env w) = Ret tt ->
  nodes w !! "squashfs-tools/unsquashfs.c"%string = Some (File consumer) ->
  let w1 := snd (apply_universal_fixes env w) in
  exists consumer1,
    nodes w1 !! "squashfs-tools/unsquashfs.c"%string = Some (File consumer1)
    /\ startswith "#ifndef FNM_EXTMATCH" consumer1 = true
    /\ (contains "int verbose = 0;" consumer = true
        \/ is_Some (last_include (split_lines consumer)) ->
        contains "int verbose = 0;" consumer1 = true)
    /\ (contains "int verbose = 0;" consumer = false ->
        last_include (split_lines consumer) = None ->
        contains "int verbose = 0;" consumer1 = false).
Proof.
  intros Hok Ec w1.
  exists (fnm_rewrite (unsquashfs_c_rewrite consumer)).
  assert (blocked (universal_rules env) (nodes w) = false) as Hb.
  { rewrite apply_universal_fixes_rules, for_each_rules in Hok. cbn [fst] in Hok.
    by destruct (blocked _ _). }
  split.
  { unfold w1. rewrite apply_universal_fixes_nodes, lookup_patched, passed_all, Ec by done.
    reflexivity. }
  split.
  { unfold fnm_rewrite. change fnm_guard with ("#ifndef FNM_EXTMATCH" : str).
    destruct (startswith "#ifndef FNM_EXTMATCH" (unsquashfs_c_rewrite consumer)) eqn:E;
      cbn [negb]; [done|]. reflexivity. }
  split.
  - intros Hc.
    change (contains verbose_definition_line
              (fnm_rewrite (unsquashfs_c_rewrite consumer)) = true).
    rewrite has_definition_fnm_rewrite. unfold unsquashfs_c_rewrite.
    destruct (unsquashfs_c_definition consumer) as [c'|] eqn:E; cbn [default].
    + apply unsquashfs_c_definition_Some in E as (_ & i & _ & ->).
      apply definition_block_contains.
    + destruct (contains verbose_definition_line consumer) eqn:Ed; [done|].
      destruct Hc as [Hc|[i Hi]];
        [change (contains verbose_definition_line consumer = true) in Hc; congruence|].
      apply unsquashfs_c_definition_None in E; [congruence|done].
  - intros Hd Hi.
    change (contains verbose_definition_line
              (fnm_rewrite (unsquashfs_c_rewrite consumer)) = false).
    rewrite has_definition_fnm_rewrite. unfold unsquashfs_c_rewrite.
    by rewrite unsquashfs_c_definition_absent.
Qed.
End Fixes.


(** The sample tree: the guard comes first, the definition is there. *)
Lemma consumer_after_fixes_witness :
  exists consumer1,
    nodes (snd (apply_universal_fixes Examples.debian Examples.sample_tree))
      !! "squashfs-tools/unsquashfs.c"%string = Some (File consumer1)
    /\ startswith "#ifndef FNM_EXTMATCH" consumer1 = true
    /\ contains "int verbose = 0;" consumer1 = true.
Proof.
  destruct (consumer_after_fixes Examples.debian Examples.sample_tree Examples.sample_consumer)
    as (c1 & E1 & E2 & E3 & _); [run_model|run_model|].
  exists c1. split; [done|]. split; [done|]. apply E3. right. by_decide.
Defined.

(** ** Detection, provisioning, patches and deployment *)

Section Provision.
Context {X : Type} (H : host X).
Implicit Types (w : world X).

(** X10: [detect_env] gives Termux precedence over every package
    manager; without Termux the package manager is the first of apt,
    pacman, dnf and apk that resolves.  The prefix is [$PREFIX] (or the
    Termux default) on Termux, [/usr] with a package manager, and
    [/usr/local] otherwise. *)
Theorem detect_env_precedence w :
  let env := detect_env H w in
  let found := head (List.filter (fun m => which H m w) ["apt"; "pacman"; "dnf"; "apk"]%string) in
  is_termux env = termux_marker H w
  /\ pkg_mgr env = (if termux_marker H w then Some "pkg"%string else found)
  /\ prefix env =
       (if termux_marker H w
        then default "/data/data/com.termux/files/usr"%string (environ H !! "PREFIX")
        else match found with Some _ => "/usr" | None => "/usr/local" end)%string.
Proof.
  unfold detect_env, termux_marker. cbn [List.filter].
  destruct (_ || _); [done|].
  destruct (which H "apt" w); [done|].
  destruct (which H "pacman" w); [done|].
  destruct (which H "dnf" w); [done|].
  by destruct (which H "apk" w).
Qed.

(** X11: every profile that [detect_env] returns has the lower-cased
    system name, is a Termux profile exactly when its package manager is
    [pkg], names one of the five managers or none, has packages exactly
    when it has a manager (and then [install_deps] has a command to run),
    always asks for git, patch, make, binutils and wget, and outside
    Termux has the prefix [/usr] with a manager and [/usr/local]
    without. *)
Theorem detect_env_profile w :
  let env := detect_env H w in
  os env = lower (platform_system H)
  /\ (is_termux env = true <-> pkg_mgr env = Some "pkg"%string)
  /\ pkg_mgr env ∈ [None; Some "pkg"; Some "apt"; Some "pacman"; Some "dnf"; Some "apk"]%string
  /\ (pkg_mgr env = None <-> packages env = [])
  /\ (pkg_mgr env = None <-> install_commands env = [])
  /\ (packages env = [] \/
      Forall (fun p => p ∈ packages env) ["git"; "patch"; "make"; "binutils"; "wget"]%string)
  /\ (is_termux env = false ->
      prefix env = match pkg_mgr env with Some _ => "/usr" | None => "/usr/local" end%string).
Proof.
  unfold detect_env.
  destruct (_ || _); [|destruct (which H "apt" w); [|destruct (which H "pacman" w);
    [|destruct (which H "dnf" w); [|destruct (which H "apk" w)]]]];
    cbv zeta; cbn [os is_termux pkg_mgr packages prefix];
    (split; [reflexivity|]); (split; [done|]); (split; [by_decide|]);
    (split; [done|]); (split; [done|]); (split; [|done]);
    first [by left | right; by_decide].
Qed.

Lemma run_cmd_exited cmd check silent w :
  (exists rc, fst (sh H cmd (environ H) w) = Exited rc) ->
  exists r, run_cmd H cmd check silent w
            = (Ret r, record_spawn cmd (environ H) (snd (sh H cmd (environ H) w))).
Proof.
  intros [rc E]. rewrite run_cmd_run.
  destruct (sh H cmd (environ H) w) as [c w']. cbn in E. subst c. eauto.
Qed.

Section Spawns.
Hypothesis children_exit : forall cmd e w, exists rc, fst (sh H cmd e w) = Exited rc.
Hypothesis children_quiet : forall cmd e w, spawned (snd (sh H cmd e w)) = spawned w.

Lemma spawns_ret {A} (a : A) : spawns (X:=X) (environ H) [] (mret a).
Proof. intros w. exists a, w. by rewrite app_nil_r. Qed.

Lemma spawns_bind {A B} c1 c2 (m : M X A) (f : A -> M X B) :
  spawns (environ H) c1 m -> (forall a, spawns (environ H) c2 (f a)) ->
  spawns (environ H) (c1 ++ c2) (m ≫= f).
Proof.
  intros Hm Hf w. destruct (Hm w) as (a & w1 & E1 & S1).
  destruct (Hf a w1) as (b & w2 & E2 & S2).
  exists b, w2. rewrite (bind_ret _ _ _ _ _ E1). split; [done|].
  by rewrite S2, S1, map_app, app_assoc.
Qed.

Lemma spawns_run_cmd cmd check silent :
  spawns (environ H) [cmd] (run_cmd H cmd check silent).
Proof.
  intros w. destruct (run_cmd_exited cmd check silent w (children_exit _ _ _)) as [r E].
  eexists _, _. split; [exact E|]. cbn. by rewrite children_quiet.
Qed.

Lemma spawns_install_deps env :
  spawns (environ H) (install_commands env) (install_deps H env).
Proof.
  unfold install_deps, install_commands. destruct (pkg_mgr env) as [mgr|]; [|apply spawns_ret].
  destruct (String.eqb_spec mgr "") as [->|_]; [apply spawns_ret|].
  destruct (mgr =? "pkg")%string.
  { induction (packages env) as [|p ps IH]; [apply spawns_ret|].
    cbn [for_each map]. apply (spawns_bind [_] _); [|by intros _].
    apply (spawns_bind [_] []); [apply spawns_run_cmd|intros _; apply spawns_ret]. }
  destruct (mgr =? "apt")%string.
  { apply (spawns_bind [_] [_]); [apply spawns_run_cmd|intros _].
    apply (spawns_bind [_] []); [apply spawns_run_cmd|intros _; apply spawns_ret]. }
  repeat (destruct (_ =? _)%string;
    [apply (spawns_bind [_] []); [apply spawns_run_cmd|intros _; apply spawns_ret]|]).
  apply spawns_ret.
Qed.
End Spawns.

(** X12: on a host whose children all exit and leave the record of
    started processes alone, [install_deps] returns normally after
    starting exactly the commands of [install_commands], in order and in
    the environment of the script: one [pkg install -y] per package on
    Termux, update and install on apt, one install command for the other
    managers, nothing without a manager. *)
Theorem install_deps_commands env w :
  (forall cmd e w', exists rc, fst (sh H cmd e w') = Exited rc) ->
  (forall cmd e w', spawned (snd (sh H cmd e w')) = spawned w') ->
  fst (install_deps H env w) = Ret tt
  /\ spawned (snd (install_deps H env w))
     = spawned w ++ map (fun c => Invocation c (environ H)) (install_commands env).
Proof.
  intros H1 H2. destruct (spawns_install_deps H1 H2 env w) as ([] & w' & -> & E). done.
Qed.

(** X13: [install_deps] is best effort: on a host on which every child
    exits, whatever its status, it returns normally for every profile. *)
Theorem install_deps_best_effort env w :
  (forall cmd e w', exists rc, fst (sh H cmd e w') = Exited rc) ->
  fst (install_deps H env w) = Ret tt.
Proof.
  intros Hex.
  assert (forall cmd check silent w', exists r w'',
            run_cmd H cmd check silent w' = (Ret r, w'')) as Hrun.
  { intros. edestruct run_cmd_exited as [r E]; [apply Hex|]. eauto. }
  assert (forall cmd w', (run_cmd H cmd true true;; mret tt) w' =
            (Ret tt, snd (run_cmd H cmd true true w'))) as Hone.
  { intros cmd w'. destruct (Hrun cmd true true w') as (r & w'' & E).
    by rewrite (bind_ret _ _ _ _ _ E), E. }
  unfold install_deps. destruct (pkg_mgr env) as [mgr|]; [|done].
  destruct (mgr =? "")%string; [done|].
  destruct (mgr =? "pkg")%string.
  { revert w. induction (packages env) as [|p ps IH]; intros w; [done|].
    cbn [for_each]. rewrite seq_run, Hone. apply IH. }
  destruct (mgr =? "apt")%string.
  { destruct (Hrun "sudo apt-get update"%string true true w) as (r & w' & E).
    rewrite (bind_ret _ _ _ _ _ E). by rewrite Hone. }
  repeat (destruct (_ =? _)%string; [by rewrite Hone|]).
  done.
Qed.



(** X15: after a build that worked and a copy to
    [../../sasquatch_binary] that worked, [build_and_deploy] returns
    [True].  On Termux it then copies the binary into the prefix and sets
    its mode, and a failure of either is swallowed; elsewhere it copies
    nothing into the prefix. *)
Theorem build_and_deploy_install env w w1 w2 r0 w3 w5 :
  os_chdir H "squashfs-tools" w = Some w1 ->
  run_cmd H "make clean" false true w1 = (Ret r0, w2) ->
  sh H (make_cmd H w2) (environ H) w2 = (Exited 0, w3) ->
  path_exists "sasquatch" w3 = true ->
  copy H "sasquatch" "../../sasquatch_binary"
    (record_spawn (make_cmd H w2) (environ H) w3) = Some w5 ->
  build_and_deploy H env w =
    (Ret true,
     if is_termux env then
       match copy H "sasquatch" (prefix env ++ "/bin/sasquatch") w5 with
       | Some w6 =>
           match chmod H (prefix env ++ "/bin/sasquatch") w6 with
           | Some w7 => w7
           | None => w6
           end
       | None => w5
       end
     else w5).
Proof.
  intros E1 E2 E3 Ea Ec.
  rewrite (build_and_deploy_run H env _ _ _ _ _ _ E1 E2 E3). cbv zeta.
  rewrite Ea, Ec. cbn [Z.eqb andb]. f_equal.
  destruct (is_termux env); [|done].
  unfold try_except. rewrite bind_run. unfold os_call.
  destruct (copy H _ _ w5) as [w6|]; [|done].
  by destruct (chmod H _ w6).
Qed.

(** X16: when [make] exits with a non-zero status, or leaves no
    [sasquatch], [build_and_deploy] returns [False] and copies nothing:
    the machine is as [make] left it. *)
Theorem failed_build_copies_nothing env w w1 w2 r0 rc w3 :
  os_chdir H "squashfs-tools" w = Some w1 ->
  run_cmd H "make clean" false true w1 = (Ret r0, w2) ->
  sh H (make_cmd H w2) (environ H) w2 = (Exited rc, w3) ->
  rc <> 0%Z \/ path_exists "sasquatch" w3 = false ->
  build_and_deploy H env w
  = (Ret false, record_spawn (make_cmd H w2) (environ H) w3).
Proof.
  intros E1 E2 E3 Hf.
  rewrite (build_and_deploy_run H env _ _ _ _ _ _ E1 E2 E3). cbv zeta.
  destruct Hf as [Hrc| ->]; [|by rewrite andb_false_r].
  by destruct (Z.eqb_spec rc 0).
Qed.

End Provision.

(** ** The exit status *)

Section Raises.
Context {X : Type} (H : host X) (allowed : exn -> bool).
Hypothesis allowed_OSError : allowed OSError = true.
Hypothesis allowed_no_exit : forall code, allowed (SystemExit code) = false.
Hypothesis allowed_interrupt :
  forall cmd e w, fst (sh H cmd e w) = Interrupted -> allowed KeyboardInterrupt = true.
Hypothesis allowed_spawn :
  forall cmd e w, fst (sh H cmd e w) = SpawnFailed -> allowed OSError = true.

Lemma raises_only_ret {A} (a : A) : raises_only (X:=X) allowed (mret a).
Proof. by intros w. Qed.

Lemma raises_only_bind {A B} (m : M X A) (f : A -> M X B) :
  raises_only allowed m -> (forall a, raises_only allowed (f a)) ->
  raises_only allowed (m ≫= f).
Proof.
  intros Hm Hf w. rewrite bind_run. specialize (Hm w).
  destruct (m w) as [[a|e] w']; [apply Hf|done].
Qed.

Lemma raises_only_gets {A} (f : world X -> A) : raises_only allowed (gets f).
Proof. by intros w. Qed.

Lemma raises_only_os_call f : raises_only allowed (os_call (X:=X) f).
Proof. intros w. unfold os_call. by destruct (f w). Qed.

Lemma raises_only_read_file p : raises_only allowed (read_file (X:=X) p).
Proof. intros w. unfold read_file. by destruct (nodes w !! p) as [[]|]. Qed.

Lemma raises_only_write_file p c : raises_only allowed (write_file (X:=X) p c).
Proof. intros w. unfold write_file. by destruct (nodes w !! p) as [[]|]. Qed.

Lemma raises_only_run_cmd cmd check silent : raises_only allowed (run_cmd H cmd check silent).
Proof.
  intros w. rewrite run_cmd_run.
  pose proof (allowed_interrupt cmd (environ H) w) as Hi.
  pose proof (allowed_spawn cmd (environ H) w) as Hs.
  destruct (sh H cmd (environ H) w) as [[rc| |] w']; cbn in *; auto.
Qed.

Lemma raises_only_for_each {A} (l : list A) (body : A -> M X unit) :
  (forall a, raises_only allowed (body a)) -> raises_only allowed (for_each l body).
Proof.
  intros Hb. induction l as [|a l IH]; [apply raises_only_ret|].
  cbn [for_each]. apply raises_only_bind; [apply Hb|]. by intros _.
Qed.

Lemma raises_only_install_deps env : raises_only allowed (install_deps H env).
Proof.
  unfold install_deps. destruct (pkg_mgr env) as [mgr|]; [|apply raises_only_ret].
  repeat case_match;
    repeat first [ apply raises_only_ret | apply raises_only_run_cmd
                 | apply raises_only_for_each; intros ?
                 | apply raises_only_bind; [|intros ?] ].
Qed.

Lemma raises_only_setup_source : raises_only allowed (setup_source H).
Proof.
  unfold setup_source.
  repeat first [ apply raises_only_ret | apply raises_only_run_cmd
               | apply raises_only_gets | apply raises_only_os_call
               | apply raises_only_bind; [|intros ?] | case_match ].
Qed.

Lemma raises_only_apply_patches : raises_only allowed (apply_patches H).
Proof.
  unfold apply_patches.
  repeat first [ apply raises_only_ret | apply raises_only_run_cmd
               | apply raises_only_gets | apply raises_only_os_call
               | apply raises_only_read_file | apply raises_only_write_file
               | apply raises_only_bind; [|intros ?] | case_match ].
Qed.

Lemma raises_only_apply_universal_fixes env :
  raises_only (X:=X) allowed (apply_universal_fixes env).
Proof.
  intros w. rewrite apply_universal_fixes_rules, for_each_rules. cbn [fst].
  by destruct (blocked _ _).
Qed.

Lemma raises_only_build_and_deploy env : raises_only allowed (build_and_deploy H env).
Proof.
  unfold build_and_deploy.
  repeat first [ apply raises_only_ret | apply raises_only_run_cmd
               | apply raises_only_gets | apply raises_only_os_call
               | apply raises_only_bind; [|intros ?] ].
  case_match; [|apply raises_only_ret].
  repeat first [ apply raises_only_ret | apply raises_only_os_call
               | apply raises_only_bind; [|intros ?] ].
  destruct (is_termux env); [|apply raises_only_ret].
  intros w. unfold try_except. rewrite bind_run. unfold os_call.
  destruct (copy H _ _ w) as [w1|]; [|done].
  by destruct (chmod H _ w1).
Qed.

(** What the [try] block of [main] ends with. *)
Lemma main_body_outcome w :
  match fst (main_body H w) with
  | Ret _ => False
  | Raise (SystemExit code) =>
      let env := detect_env H w in
      exists w1 w2 w3 w4 w5 b,
        install_deps H env w = (Ret tt, w1)
        /\ setup_source H w1 = (Ret tt, w2)
        /\ apply_patches H w2 = (Ret tt, w3)
        /\ apply_universal_fixes env w3 = (Ret tt, w4)
        /\ build_and_deploy H env w4 = (Ret b, w5)
        /\ code = (if b : bool then 0 else 1)%Z
  | Raise e => allowed e = true
  end.
Proof.
  assert (forall e (P : Z -> Prop), allowed e = true ->
            match e with
            | SystemExit code => P code
            | _ => allowed e = true
            end) as Hraise.
  { intros [] P He; try done. by rewrite allowed_no_exit in He. }
  unfold main_body. rewrite bind_run. unfold gets at 1. cbv beta iota zeta.
  set (env := detect_env H w).
  rewrite bind_run. pose proof (raises_only_install_deps env w) as H1.
  destruct (install_deps H env w) as [[[]|e] w1] eqn:E1; [clear H1|by apply Hraise].
  rewrite bind_run. pose proof (raises_only_setup_source w1) as H2.
  destruct (setup_source H w1) as [[[]|e] w2] eqn:E2; [clear H2|by apply Hraise].
  rewrite bind_run. pose proof (raises_only_apply_patches w2) as H3.
  destruct (apply_patches H w2) as [[[]|e] w3] eqn:E3; [clear H3|by apply Hraise].
  rewrite bind_run. pose proof (raises_only_apply_universal_fixes env w3) as H4.
  destruct (apply_universal_fixes env w3) as [[[]|e] w4] eqn:E4; [clear H4|by apply Hraise].
  rewrite bind_run. pose proof (raises_only_build_and_deploy env w4) as H5.
  destruct (build_and_deploy H env w4) as [[b|e] w5] eqn:Eb; [clear H5|by apply Hraise].
  destruct b; cbn [fst sys_exit raise];
    [exists w1, w2, w3, w4, w5, true|exists w1, w2, w3, w4, w5, false]; done.
Qed.
End Raises.

Section Exit.
Context {X : Type} (H : host X).
Implicit Types (w : world X).

(** X17: [main] never returns and lets no other exception out: on every
    host it ends in [SystemExit], with status 0, 1 or 130. *)
Theorem main_exits w :
  fst (main H w) = Raise (SystemExit (exit_status H w))
  /\ (exit_status H w = 0 \/ exit_status H w = 1 \/ exit_status H w = 130)%Z.
Proof.
  pose proof (main_body_outcome H interrupt_or_OSError eq_refl (fun _ => eq_refl)
                (fun _ _ _ _ => eq_refl) (fun _ _ _ _ => eq_refl) w) as Hb.
  unfold exit_status, main, try_except.
  destruct (main_body H w) as [[[]|[| code | |rc]] w']; cbn [fst] in *; try done.
  - split; [done|]. right. by right.
  - destruct Hb as (w1 & w2 & w3 & w4 & w5 & [] & _ & _ & _ & _ & _ & ->); split; auto.
  - split; [done|]. right. by left.
Qed.


Lemma build_and_deploy_true_inv env w w' :
  build_and_deploy H env w = (Ret true, w') ->
  exists w5 r0 w6 w7,
    os_chdir H "squashfs-tools" w = Some w5
    /\ run_cmd H "make clean" false true w5 = (Ret r0, w6)
    /\ sh H (make_cmd H w6) (environ H) w6 = (Exited 0, w7)
    /\ path_exists "sasquatch" w7 = true
    /\ is_Some (copy H "sasquatch" "../../sasquatch_binary"
                  (record_spawn (make_cmd H w6) (environ H) w7)).
Proof.
  unfold build_and_deploy. intros E.
  apply bind_ret_inv in E as ([] & w1 & E1 & E).
  apply bind_ret_inv in E as (r0 & w2 & E2 & E).
  apply bind_ret_inv in E as (n & w3 & En & E).
  unfold gets in En. injection En as <- <-.
  apply bind_ret_inv in E as (r & w4 & Er & E).
  apply bind_ret_inv in E as (a & w5 & Ea & E).
  unfold gets in Ea. injection Ea as <- <-.
  rewrite run_cmd_run in Er. fold (make_cmd H w2) in Er.
  destruct (sh H (make_cmd H w2) (environ H) w2) as [[rc| |] w7] eqn:Es; [|done|done].
  cbv zeta in Er. injection Er as <- <-.
  exists w1, r0, w2, w7.
  split. { unfold os_call in E1. by destruct (os_chdir H _ w) as [?|]; simplify_eq. }
  split; [done|].
  change (path_exists "sasquatch" (record_spawn (make_cmd H w2) (environ H) w7))
    with (path_exists "sasquatch" w7) in E.
  destruct (Z.eqb_spec rc 0) as [->|Hrc]; cbn [andb negb returncode] in E.
  2: { cbn in E. done. }
  cbn [Z.eqb andb] in E.
  destruct (path_exists "sasquatch" w7); [|done].
  split; [done|]. split; [done|].
  apply bind_ret_inv in E as ([] & w8 & Ec & _).
  unfold os_call in Ec. destruct (copy H _ _ _) as [w9|]; [eauto|done].
Qed.

(** X19: the exit status 0 is never given for less than a full run:
    dependencies, sources, patches and fixes all returned normally, the
    build directory was entered, [make] exited with status 0, the file
    [sasquatch] was there afterwards and its copy next to the build
    directory worked. *)
Theorem exit_zero_sound w :
  exit_status H w = 0%Z ->
  let env := detect_env H w in
  exists w1 w2 w3 w4 w5 r0 w6 w7,
    install_deps H env w = (Ret tt, w1)
    /\ setup_source H w1 = (Ret tt, w2)
    /\ apply_patches H w2 = (Ret tt, w3)
    /\ apply_universal_fixes env w3 = (Ret tt, w4)
    /\ os_chdir H "squashfs-tools" w4 = Some w5
    /\ run_cmd H "make clean" false true w5 = (Ret r0, w6)
    /\ sh H (make_cmd H w6) (environ H) w6 = (Exited 0, w7)
    /\ path_exists "sasquatch" w7 = true
    /\ is_Some (copy H "sasquatch" "../../sasquatch_binary"
                  (record_spawn (make_cmd H w6) (environ H) w7)).
Proof.
  pose proof (main_body_outcome H interrupt_or_OSError eq_refl (fun _ => eq_refl)
                (fun _ _ _ _ => eq_refl) (fun _ _ _ _ => eq_refl) w) as Hb.
  rewrite exit_status_body.
  destruct (main_body H w) as [[[]|[| code | |rc]] w']; cbn [fst] in *; try done.
  intros ->.
  destruct Hb as (w1 & w2 & w3 & w4 & w5 & [] & E1 & E2 & E3 & E4 & Eb & Hc); [|done].
  apply build_and_deploy_true_inv in Eb as (w5' & r0 & w6 & w7 & ?).
  exists w1, w2, w3, w4, w5', r0, w6, w7. tauto.
Qed.

(** X20: in a run that reaches the build, an interrupted [make] gives
    the exit status 130, a [make] that cannot be started gives 1, and so
    does a [make] that exits with a non-zero status, whatever the copy of
    the artifact would have done. *)
Theorem broken_build_step w env w1 w2 w3 w4 w5 r0 w6 c w7 :
  detect_env H w = env ->
  install_deps H env w = (Ret tt, w1) ->
  setup_source H w1 = (Ret tt, w2) ->
  apply_patches H w2 = (Ret tt, w3) ->
  apply_universal_fixes env w3 = (Ret tt, w4) ->
  os_chdir H "squashfs-tools" w4 = Some w5 ->
  run_cmd H "make clean" false true w5 = (Ret r0, w6) ->
  sh H (make_cmd H w6) (environ H) w6 = (c, w7) ->
  match c with
  | Interrupted => exit_status H w = 130%Z
  | SpawnFailed => exit_status H w = 1%Z
  | Exited rc => rc <> 0%Z -> exit_status H w = 1%Z
  end.
Proof.
  intros E0 E1 E2 E3 E4 E5 E6 E7.
  destruct c as [rc| |].
  { intros Hrc. rewrite (normal_run_exit H _ _ _ _ _ _ _ _ _ _ _ E0 E1 E2 E3 E4 E5 E6 E7).
    by destruct (Z.eqb_spec rc 0). }
  all: rewrite exit_status_body, (main_body_to_fixes _ _ _ _ _ _ E0 E1 E2 E3);
    rewrite (bind_ret _ _ _ _ _ E4); cbv beta;
    rewrite bind_run; unfold build_and_deploy;
    rewrite (bind_ret _ _ _ _ _ (os_call_some _ _ _ E5));
    rewrite (bind_ret _ _ _ _ _ E6); cbv beta;
    rewrite bind_run; unfold gets at 1; cbv beta iota;
    rewrite bind_run, run_cmd_run; fold (make_cmd H w6); by rewrite E7.
Qed.

(** X21: when the build directory cannot be prepared, because removing
    the old one, creating it or entering it fails, [setup_source] raises
    [OSError] and the run exits with status 1. *)
Theorem unprepared_directory_exits_1 w w1 :
  install_deps H (detect_env H w) w = (Ret tt, w1) ->
  (w2 ← (if path_exists BUILD_DIR w1 then rmtree H BUILD_DIR w1 else Some w1);
   w3 ← makedirs H BUILD_DIR w2;
   os_chdir H BUILD_DIR w3) = None ->
  fst (setup_source H w1) = Raise OSError
  /\ exit_status H w = 1%Z.
Proof.
  intros E1 Hp.
  assert (exists w', setup_source H w1 = (Raise OSError, w')) as (w' & Es).
  { unfold setup_source. rewrite bind_run. unfold gets at 1. cbv beta iota.
    rewrite bind_run.
    assert (forall (f : world X -> option (world X)) (k : unit -> M X unit) w0,
              f w0 = None -> (os_call f ≫= k) w0 = (Raise OSError, w0)) as Hfail.
    { intros f k w0 E. by rewrite (bind_raise _ _ _ _ _ (os_call_none _ _ E)). }
    assert (forall w2, (w3 ← makedirs H BUILD_DIR w2; os_chdir H BUILD_DIR w3) = None ->
              exists w', (os_call (makedirs H BUILD_DIR);;
                          os_call (os_chdir H BUILD_DIR);;
                          run_cmd H ("git clone " ++ REPO_URL ++ " repo") true true;;
                          run_cmd H ("wget -q " ++ SQUASHFS_URL) true false;;
                          run_cmd H "tar -zxf squashfs4.3.tar.gz" true false;;
                          mret tt) w2 = (Raise OSError, w')) as Hrest.
    { intros w2 E. destruct (makedirs H BUILD_DIR w2) as [w3|] eqn:Em.
      - cbn [mbind option_bind] in E.
        rewrite (bind_ret _ _ _ _ _ (os_call_some _ _ _ Em)). cbv beta.
        rewrite Hfail by done. eauto.
      - rewrite Hfail by done. eauto. }
    destruct (path_exists BUILD_DIR w1).
    - unfold os_call at 1. destruct (rmtree H BUILD_DIR w1) as [w2|] eqn:Er; [|eauto].
      cbn [mbind option_bind] in Hp. cbv beta iota. by apply Hrest.
    - cbv beta iota. by apply Hrest. }
  rewrite Es. cbn [fst snd]. split; [done|].
  rewrite exit_status_body. unfold main_body.
  rewrite bind_run. unfold gets at 1. cbv beta iota.
  rewrite (bind_ret _ _ _ _ _ E1). cbv beta.
  by rewrite (bind_raise _ _ _ _ _ Es).
Qed.
End Exit.


(** The machine on which every step works: its build left the artifact. *)
Lemma exit_zero_sound_witness :
  exists w6 w7 : world unit,
    sh (Scripted.host_of Examples.bare) (make_cmd (Scripted.host_of Examples.bare) w6)
       ∅ w6 = (Exited 0, w7)
    /\ path_exists "sasquatch" w7 = true.
Proof.
  destruct (exit_zero_sound (Scripted.host_of Examples.bare) Scripted.start)
    as (w1 & w2 & w3 & w4 & w5 & r0 & w6 & w7 & _ & _ & _ & _ & _ & _ & Hs & Ha & _);
    [run_model|].
  exists w6, w7. split; [exact Hs|exact Ha].
Defined.

(** The build interrupted by the user. *)
Lemma broken_build_step_witness :
  exit_status (Scripted.host_of Machines.interrupted_build) Scripted.start = 130%Z.
Proof.
  eapply (broken_build_step (Scripted.host_of Machines.interrupted_build) Scripted.start
            _ _ _ _ _ _ _ _ Interrupted).
  1: run_model. 1: run_model. 1: run_model. 1: run_model.
  1: run_model. 1: run_model. 1: run_model. run_model.
Defined.

(** The machine on which no directory can be created. *)
Lemma unprepared_directory_exits_1_witness :
  fst (setup_source Machines.read_only Scripted.start) = Raise OSError
  /\ exit_status Machines.read_only Scripted.start = 1%Z.
Proof.
  apply (unprepared_directory_exits_1 Machines.read_only Scripted.start Scripted.start);
    reflexivity.
Defined.

(** Three packages on Termux, every installation failing. *)
Lemma install_deps_commands_witness :
  map inv_cmd (spawned (snd (install_deps Examples.offline Machines.termux_profile
                               Scripted.start)))
  = ["pkg install -y git"; "pkg install -y patch"; "pkg install -y make"]%string.
Proof.
  rewrite (proj2 (install_deps_commands Examples.offline Machines.termux_profile
                    Scripted.start
                    (fun _ _ _ => ex_intro _ 1%Z eq_refl) (fun _ _ _ => eq_refl))).
  reflexivity.
Defined.

(** The machine on which every command fails. *)
Lemma install_deps_best_effort_witness :
  fst (install_deps Examples.offline Machines.termux_profile Scripted.start) = Ret tt.
Proof.
  apply (install_deps_best_effort Examples.offline Machines.termux_profile Scripted.start).
  intros cmd e w'. by exists 1%Z.
Defined.


(** Termux with a prefix that cannot be written: the build still succeeds
    and the machine is as the local copy left it. *)
Lemma build_and_deploy_install_witness :
  build_and_deploy Machines.locked_termux Machines.termux_profile Scripted.start
  = (Ret true,
     record_spawn "make -j8" (environ Machines.locked_termux)
       (World {[ "sasquatch"%string := File "ELF" ]}
          [Invocation "make clean" (environ Machines.locked_termux)] tt)).
Proof.
  erewrite (build_and_deploy_install Machines.locked_termux Machines.termux_profile
              Scripted.start).
  2: run_model. 2: run_model. 2: run_model. 2: run_model. 2: run_model.
  run_model.
Defined.

(** A build that fails with status 2. *)
Lemma failed_build_copies_nothing_witness :
  build_and_deploy (Scripted.host_of Machines.failing_build) Examples.debian Scripted.start
  = (Ret false,
     World ∅ [Invocation "make clean" ∅; Invocation "make -j4" ∅] tt).
Proof.
  erewrite (failed_build_copies_nothing (Scripted.host_of Machines.failing_build)
              Examples.debian Scripted.start _ _ _ 2%Z).
  2: run_model. 2: run_model. 2: run_model. 2: (left; discriminate).
  run_model.
Defined.
